(** * LatencyMarkHarness: a shallow embedding of source/tools/LatencyMarkHarness.h

    The harness searches for the smallest output buffer, counted in bursts,
    that plays a synthesizer workload without underruns.  This development
    embeds the three parts of the class

    - the latency probe ([onBeginMeasurement], [restart], [onBeforeNoteOn],
      [onEndMeasurement]),
    - the load generator ([getCurrentNumVoices]),
    - the glitch monitor ([startMonitorCallback], [stopMonitorCallback],
      [monitorCallback], [runTest]),

    and proves the properties its specification states about them.

    Conventions.  An [int32_t] is a [Z]; arithmetic on it goes through
    [wrap32].  The C++ operators [/] and [%] truncate towards zero and are
    [Z.quot] and [Z.rem]; where the divisor is not a constant, a function
    returns [None] for the operands at which C++ leaves the operation
    undefined and the process is killed.  A [float] is a [spec_float] used
    at precision 24, a [double] a [spec_float] at precision 53.  Calls to
    [mLogTool->log] and
    the [isVerbose()] diagnostics only print and are left out; the one
    [printf] that is modelled is the notification of the monitor thread. *)

From Stdlib Require Import ZArith List Bool Lia.
From Stdlib Require Import Floats.SpecFloat.
Import ListNotations.

Local Open Scope Z_scope.

(* ================================================================= *)
(** ** Machine integers and floating point numbers *)

Definition INT32_MIN : Z := - 2 ^ 31.
Definition INT32_MAX : Z := 2 ^ 31 - 1.

(** Two's complement reduction of an integer to 32 bits. *)
Definition wrap32 (z : Z) : Z := (z + 2 ^ 31) mod 2 ^ 32 - 2 ^ 31.

Definition int32 (z : Z) : Prop := INT32_MIN <= z <= INT32_MAX.

Definition add32 (a b : Z) : Z := wrap32 (a + b).
Definition sub32 (a b : Z) : Z := wrap32 (a - b).

(** [a / b] on [int32_t]: the quotient truncated towards zero.  The result
    is [None] where C++ leaves the division undefined and the process is
    killed: a divisor 0, and [INT32_MIN / -1], whose quotient is no
    [int32_t]. *)
Definition div32 (a b : Z) : option Z :=
  if (b =? 0) || ((a =? INT32_MIN) && (b =? -1)) then None else Some (Z.quot a b).

(** [(float) z] and [(double) z] for an [int32_t] z: round to nearest even. *)
Definition float_of_int32 (z : Z) : spec_float := binary_normalize 24 128 z 0 false.
Definition double_of_int32 (z : Z) : spec_float := binary_normalize 53 1024 z 0 false.

Definition float_div : spec_float -> spec_float -> spec_float := SFdiv 24 128.
Definition double_mul : spec_float -> spec_float -> spec_float := SFmul 53 1024.
Definition double_div : spec_float -> spec_float -> spec_float := SFdiv 53 1024.

(** [1000.0 * sizeFrames / sampleRate] in [double], both integers being
    [int32_t]: the product is rounded, then the quotient. *)
Definition latencyMsecOf (sizeFrames sampleRate : Z) : spec_float :=
  double_div (double_mul (double_of_int32 1000) (double_of_int32 sizeFrames))
             (double_of_int32 sampleRate).

(* ================================================================= *)
(** ** Declarations the header includes *)

(** [#define NOTES_PER_STEP 10] *)
Definition NOTES_PER_STEP : Z := 10.

Inductive VoicesMode : Type :=
| VOICES_UNDEFINED
| VOICES_SWITCH
| VOICES_RANDOM
| VOICES_LINEAR_LOOP.

(** Modelled from the spec: the result codes of SynthMark.h, which is not
    among the sources.  The spec names two outcome kinds, [Success] and
    [UnrecoverableError]; only their being different matters here. *)
Inductive ResultCode : Type :=
| SYNTHMARK_RESULT_SUCCESS
| SYNTHMARK_RESULT_UNRECOVERABLE_ERROR.

(** The lines [onEndMeasurement] itself writes into the result message. *)
Record LatencyReport : Type := mkLatencyReport {
  frames_per_burst : Z;
  audio_latency_bursts : Z;
  audio_latency_frames : Z;
  audio_latency_msec : spec_float
}.

(** Modelled from the spec: SynthMarkResult, the result-reporting
    collaborator ("append a free-text report, set a result status code, set a
    single numeric measurement"). *)
Record SynthMarkResult : Type := mkSynthMarkResult {
  resultMessages : list LatencyReport;
  resultCode : option ResultCode;
  resultMeasurement : option spec_float
}.

Definition appendMessage (m : LatencyReport) (r : SynthMarkResult) : SynthMarkResult :=
  mkSynthMarkResult (resultMessages r ++ [m]) (resultCode r) (resultMeasurement r).

Definition setResultCode (c : ResultCode) (r : SynthMarkResult) : SynthMarkResult :=
  mkSynthMarkResult (resultMessages r) (Some c) (resultMeasurement r).

Definition setMeasurement (m : spec_float) (r : SynthMarkResult) : SynthMarkResult :=
  mkSynthMarkResult (resultMessages r) (resultCode r) (Some m).

(** The interface of AudioSinkBase.h that the harness calls through
    [mAudioSink].  Setting the size returns the size the sink really took. *)
Class AudioSinkBase (S : Type) : Type := {
  getBufferSizeInFrames : S -> Z;
  setBufferSizeInFrames : S -> Z -> S * Z;
  getUnderrunCount : S -> Z
}.

(** Modelled from the spec: HostThread.h is not among the sources.  The
    object that [new HostThread()] makes; [mMonitorThread] points to it until
    [stopMonitorCallback] deletes it.  Its [start] spawns "one background
    task" or returns an error, its [join] is to "wait for its completion
    before returning". *)
Inductive HostThread : Type :=
| hostThread.

(** The program points of the thread that runs [monitorCallback].
    [previousBufferSize] is a local of the thread.  The thread runs on its
    own: what happens to the [HostThread] object does not move it. *)
Inductive MonitorPc : Type :=
| ThreadEntry
| ThreadLoopTest (previousBufferSize : Z)
| ThreadSleeping (previousBufferSize : Z)
| ThreadFinished.

(* ================================================================= *)
(** ** The harness object *)

Section Harness.

Context {S : Type} `{AudioSinkBase S}.

(** The members of [LatencyMarkHarness], and those of its base class
    [TestHarnessBase] that the methods below read or write.  [mTimer] holds
    what [mTimer.getActiveTime()] returns. *)
Record LatencyMarkHarness : Type := mkHarness {
  (* TestHarnessBase *)
  mAudioSink : S;
  mResult : SynthMarkResult;
  mSampleRate : Z;
  mFramesPerBurst : Z;
  mFrameCounter : Z;
  mNoteCounter : Z;
  mTimer : Z;
  mNumVoices : Z;
  mNumVoicesHigh : Z;
  (* LatencyMarkHarness *)
  mPreviousUnderrunCount : Z;
  mVoicesMode : VoicesMode;
  mMonitorThread : option HostThread;
  mMonitorEnabled : bool;
  mGlitchTime : spec_float
}.

Definition set_mAudioSink (s : S) (h : LatencyMarkHarness) : LatencyMarkHarness :=
  mkHarness s (mResult h) (mSampleRate h) (mFramesPerBurst h) (mFrameCounter h)
    (mNoteCounter h) (mTimer h) (mNumVoices h) (mNumVoicesHigh h)
    (mPreviousUnderrunCount h) (mVoicesMode h) (mMonitorThread h)
    (mMonitorEnabled h) (mGlitchTime h).

Definition set_mResult (r : SynthMarkResult) (h : LatencyMarkHarness) : LatencyMarkHarness :=
  mkHarness (mAudioSink h) r (mSampleRate h) (mFramesPerBurst h) (mFrameCounter h)
    (mNoteCounter h) (mTimer h) (mNumVoices h) (mNumVoicesHigh h)
    (mPreviousUnderrunCount h) (mVoicesMode h) (mMonitorThread h)
    (mMonitorEnabled h) (mGlitchTime h).

Definition set_mFrameCounter (n : Z) (h : LatencyMarkHarness) : LatencyMarkHarness :=
  mkHarness (mAudioSink h) (mResult h) (mSampleRate h) (mFramesPerBurst h) n
    (mNoteCounter h) (mTimer h) (mNumVoices h) (mNumVoicesHigh h)
    (mPreviousUnderrunCount h) (mVoicesMode h) (mMonitorThread h)
    (mMonitorEnabled h) (mGlitchTime h).

Definition set_mNoteCounter (n : Z) (h : LatencyMarkHarness) : LatencyMarkHarness :=
  mkHarness (mAudioSink h) (mResult h) (mSampleRate h) (mFramesPerBurst h)
    (mFrameCounter h) n (mTimer h) (mNumVoices h) (mNumVoicesHigh h)
    (mPreviousUnderrunCount h) (mVoicesMode h) (mMonitorThread h)
    (mMonitorEnabled h) (mGlitchTime h).

Definition set_mTimer (t : Z) (h : LatencyMarkHarness) : LatencyMarkHarness :=
  mkHarness (mAudioSink h) (mResult h) (mSampleRate h) (mFramesPerBurst h)
    (mFrameCounter h) (mNoteCounter h) t (mNumVoices h) (mNumVoicesHigh h)
    (mPreviousUnderrunCount h) (mVoicesMode h) (mMonitorThread h)
    (mMonitorEnabled h) (mGlitchTime h).

Definition set_mPreviousUnderrunCount (n : Z) (h : LatencyMarkHarness) : LatencyMarkHarness :=
  mkHarness (mAudioSink h) (mResult h) (mSampleRate h) (mFramesPerBurst h)
    (mFrameCounter h) (mNoteCounter h) (mTimer h) (mNumVoices h) (mNumVoicesHigh h)
    n (mVoicesMode h) (mMonitorThread h) (mMonitorEnabled h) (mGlitchTime h).

Definition set_mMonitorThread (t : option HostThread) (h : LatencyMarkHarness) : LatencyMarkHarness :=
  mkHarness (mAudioSink h) (mResult h) (mSampleRate h) (mFramesPerBurst h)
    (mFrameCounter h) (mNoteCounter h) (mTimer h) (mNumVoices h) (mNumVoicesHigh h)
    (mPreviousUnderrunCount h) (mVoicesMode h) t (mMonitorEnabled h) (mGlitchTime h).

Definition set_mMonitorEnabled (b : bool) (h : LatencyMarkHarness) : LatencyMarkHarness :=
  mkHarness (mAudioSink h) (mResult h) (mSampleRate h) (mFramesPerBurst h)
    (mFrameCounter h) (mNoteCounter h) (mTimer h) (mNumVoices h) (mNumVoicesHigh h)
    (mPreviousUnderrunCount h) (mVoicesMode h) (mMonitorThread h) b (mGlitchTime h).

Definition set_mGlitchTime (t : spec_float) (h : LatencyMarkHarness) : LatencyMarkHarness :=
  mkHarness (mAudioSink h) (mResult h) (mSampleRate h) (mFramesPerBurst h)
    (mFrameCounter h) (mNoteCounter h) (mTimer h) (mNumVoices h) (mNumVoicesHigh h)
    (mPreviousUnderrunCount h) (mVoicesMode h) (mMonitorThread h)
    (mMonitorEnabled h) t.

(** [setVoicesMode] *)
Definition setVoicesMode (vm : VoicesMode) (h : LatencyMarkHarness) : LatencyMarkHarness :=
  mkHarness (mAudioSink h) (mResult h) (mSampleRate h) (mFramesPerBurst h)
    (mFrameCounter h) (mNoteCounter h) (mTimer h) (mNumVoices h) (mNumVoicesHigh h)
    (mPreviousUnderrunCount h) vm (mMonitorThread h) (mMonitorEnabled h)
    (mGlitchTime h).

Definition getNumVoices (h : LatencyMarkHarness) : Z := mNumVoices h.
Definition getNoteCounter (h : LatencyMarkHarness) : Z := mNoteCounter h.

(* ----------------------------------------------------------------- *)
(** *** The latency probe *)

(** [onBeginMeasurement]: the underrun baseline is cleared and the sink is
    asked for a buffer of one burst; the size it returns is dropped. *)
Definition onBeginMeasurement (h : LatencyMarkHarness) : LatencyMarkHarness :=
  let h1 := set_mPreviousUnderrunCount 0 h in
  let '(sink, _) := setBufferSizeInFrames (mAudioSink h1) (mFramesPerBurst h1) in
  set_mAudioSink sink h1.

(** [restart] *)
Definition restart (h : LatencyMarkHarness) : LatencyMarkHarness :=
  set_mNoteCounter 0 (set_mFrameCounter 0 h).

(** The two tests that guard the growth of the buffer in [onBeforeNoteOn]. *)
Definition underrunObserved (h : LatencyMarkHarness) : bool :=
  (0 <? mTimer h) && (mPreviousUnderrunCount h <? getUnderrunCount (mAudioSink h)).

(** [onBeforeNoteOn] *)
Definition onBeforeNoteOn (h : LatencyMarkHarness) : LatencyMarkHarness * ResultCode :=
  if 0 <? mTimer h then
    let underruns := getUnderrunCount (mAudioSink h) in
    if mPreviousUnderrunCount h <? underruns then
      let h1 := set_mPreviousUnderrunCount underruns h in
      let sizeInFrames := getBufferSizeInFrames (mAudioSink h1) in
      let desiredSizeInFrames := add32 sizeInFrames (mFramesPerBurst h1) in
      let '(sink, actualSize) :=
        setBufferSizeInFrames (mAudioSink h1) desiredSizeInFrames in
      let h2 := set_mAudioSink sink h1 in
      if actualSize <? desiredSizeInFrames then
        (h2, SYNTHMARK_RESULT_UNRECOVERABLE_ERROR)
      else
        let h3 := set_mGlitchTime
                    (float_div (float_of_int32 (mFrameCounter h2))
                               (float_of_int32 (mSampleRate h2))) h2 in
        (restart h3, SYNTHMARK_RESULT_SUCCESS)
    else (h, SYNTHMARK_RESULT_SUCCESS)
  else (h, SYNTHMARK_RESULT_SUCCESS).

(** [onEndMeasurement].  The message is composed before anything is written
    to the result: where the division [sizeFrames / mFramesPerBurst] is
    undefined the process dies with the result untouched, and there is no
    harness to return. *)
Definition onEndMeasurement (h : LatencyMarkHarness) : option LatencyMarkHarness :=
  let sizeFrames := getBufferSizeInFrames (mAudioSink h) in
  let latencyMsec := latencyMsecOf sizeFrames (mSampleRate h) in
  match div32 sizeFrames (mFramesPerBurst h) with
  | None => None
  | Some bursts =>
      let resultMessage :=
        mkLatencyReport (mFramesPerBurst h) bursts sizeFrames latencyMsec in
      Some (set_mResult
              (setMeasurement (double_of_int32 sizeFrames)
                 (setResultCode SYNTHMARK_RESULT_SUCCESS
                    (appendMessage resultMessage (mResult h)))) h)
  end.

End Harness.

Arguments LatencyMarkHarness S : clear implicits.

(* ================================================================= *)
(** ** The load generator *)

(** The C library's pseudo-random generator: [srand] installs a state that
    depends on the seed only, [rand] returns the next number and the state
    that follows. *)
Class LibcRand (R : Type) : Type := {
  srand : Z -> R;
  rand : R -> R * Z
}.

Section LoadGenerator.

Context {S : Type} `{AudioSinkBase S} {R : Type} `{LibcRand R}.

(** State that belongs to the process and not to a harness object: the
    function-local [static int32_t lastVoices] of [getCurrentNumVoices] and
    the state behind [rand()]. *)
Record ProcessGlobals : Type := mkGlobals {
  lastVoices : Z;
  randState : R
}.

Definition set_lastVoices (v : Z) (g : ProcessGlobals) : ProcessGlobals :=
  mkGlobals v (randState g).

(** A static without initializer starts at zero. *)
Definition processStart (r : R) : ProcessGlobals := mkGlobals 0 r.

(** The constructor.  [base] is the object as the constructor of
    [TestHarnessBase] leaves it and [numVoicesLatency] stands for the constant
    [kSynthmarkNumVoicesLatency] of SynthMark.h.  The members of the derived
    class take their default initializers, then the body sets the number of
    voices and seeds the generator with 0. *)
Definition newLatencyMarkHarness (numVoicesLatency : Z) (base : LatencyMarkHarness S)
    (g : ProcessGlobals) : LatencyMarkHarness S * ProcessGlobals :=
  (mkHarness (mAudioSink base) (mResult base) (mSampleRate base)
     (mFramesPerBurst base) (mFrameCounter base) (mNoteCounter base)
     (mTimer base) numVoicesLatency (mNumVoicesHigh base)
     0 VOICES_SWITCH None true (S754_zero false),
   mkGlobals (lastVoices g) (srand 0)).

(** [(getNoteCounter() % NOTES_PER_STEP) < (NOTES_PER_STEP / 2) ? low : high] *)
Definition switchVoices (h : LatencyMarkHarness S) : Z :=
  if Z.rem (getNoteCounter h) NOTES_PER_STEP <? Z.quot NOTES_PER_STEP 2
  then getNumVoices h else mNumVoicesHigh h.

(** [lastVoices += NOTES_PER_STEP / 2], then the reset to the low count. *)
Definition linearLoopVoices (h : LatencyMarkHarness S) (last : Z) : Z :=
  let last' := add32 last (Z.quot NOTES_PER_STEP 2) in
  if (mNumVoicesHigh h <? last') || (last' <? getNumVoices h)
  then getNumVoices h else last'.

(** The divisor [mNumVoicesHigh - getNumVoices() + 1] of the random draw. *)
Definition randomRange (h : LatencyMarkHarness S) : Z :=
  add32 (sub32 (mNumVoicesHigh h) (getNumVoices h)) 1.

(** [(r % range) + getNumVoices()] for the number [r] that [rand()] gave. *)
Definition randomVoices (h : LatencyMarkHarness S) (r : Z) : Z :=
  add32 (Z.rem r (randomRange h)) (getNumVoices h).

(** [getCurrentNumVoices].  The result is [None] where the C++ divides by
    zero. *)
Definition getCurrentNumVoices (h : LatencyMarkHarness S) (g : ProcessGlobals)
    : option (ProcessGlobals * Z) :=
  if 0 <? mNumVoicesHigh h then
    let needUpdate := Z.rem (getNoteCounter h) (Z.quot NOTES_PER_STEP 2) =? 0 in
    if needUpdate then
      match mVoicesMode h with
      | VOICES_LINEAR_LOOP =>
          let v := linearLoopVoices h (lastVoices g) in
          Some (set_lastVoices v g, v)
      | VOICES_RANDOM =>
          let '(rs, r) := rand (randState g) in
          if randomRange h =? 0 then None
          else
            let v := randomVoices h r in
            Some (mkGlobals v rs, v)
      | _ =>
          let v := switchVoices h in
          Some (set_lastVoices v g, v)
      end
    else Some (g, lastVoices g)
  else Some (g, getNumVoices h).

(** Modelled from the spec: the per-note driver of TestHarnessBase, which is
    not among the sources ("a per-note callback invokes LoadGenerator to size
    the next note's workload").  The generator is asked once for each note
    counter of [notes], in order. *)
Fixpoint voicesForNotes (h : LatencyMarkHarness S) (g : ProcessGlobals)
    (notes : list Z) : option (ProcessGlobals * list Z) :=
  match notes with
  | [] => Some (g, [])
  | n :: rest =>
      match getCurrentNumVoices (set_mNoteCounter n h) g with
      | None => None
      | Some (g1, v) =>
          match voicesForNotes h g1 rest with
          | None => None
          | Some (g2, vs) => Some (g2, v :: vs)
          end
      end
  end.

(** The note counters a run shows to the generator: each is one more than
    the one before, or is 0 again after a [restart]; after [prev = -1] the
    first one is 0. *)
Fixpoint countsFrom (prev : Z) (notes : list Z) : Prop :=
  match notes with
  | [] => True
  | n :: rest => (n = prev + 1 \/ n = 0) /\ countsFrom n rest
  end.

(** The low and high voice counts are [int32_t], ordered, and their
    distance plus one is an [int32_t] too. *)
Definition voiceRange (h : LatencyMarkHarness S) : Prop :=
  int32 (mNumVoices h) /\ int32 (mNumVoicesHigh h) /\
  mNumVoices h <= mNumVoicesHigh h /\
  mNumVoicesHigh h - mNumVoices h < INT32_MAX.

End LoadGenerator.

Arguments ProcessGlobals R : clear implicits.

(** The pattern the specification gives for the Switch mode with a step of
    10 notes: the low count for the notes 0 to 4 of a cycle, the high count
    for the notes 5 to 9. *)
Definition switchPattern (low high n : Z) : Z :=
  if n mod 10 <? 5 then low else high.

(** The generator that ISO C gives as an example implementation of
    [rand]; it serves to run the load generator on concrete inputs. *)
Definition isoC_next (s : Z) : Z := (s * 1103515245 + 12345) mod 2 ^ 32.

#[export] Instance IsoCRand : LibcRand Z := {
  srand seed := seed mod 2 ^ 32;
  rand s := let s' := isoC_next s in (s', (s' / 65536) mod 32768)
}.

(* ================================================================= *)
(** ** The audio sink and the driver of the probe *)

(** Modelled from the spec: an implementation of [AudioSinkBase] (no sink is
    among the sources).  It owns the buffer size and the underrun counter,
    has a maximum buffer size, and "may clamp below request" when the size is
    set, returning the size it took. *)
Record VirtualSink : Type := mkSink {
  bufferSizeInFrames : Z;
  maxBufferSizeInFrames : Z;
  underrunCount : Z
}.

#[export] Instance VirtualAudioSink : AudioSinkBase VirtualSink := {
  getBufferSizeInFrames s := bufferSizeInFrames s;
  setBufferSizeInFrames s numFrames :=
    let actual := Z.min numFrames (maxBufferSizeInFrames s) in
    (mkSink actual (maxBufferSizeInFrames s) (underrunCount s), actual);
  getUnderrunCount s := underrunCount s
}.

Definition Harness : Type := LatencyMarkHarness VirtualSink.

Definition bufferSize (h : Harness) : Z := getBufferSizeInFrames (mAudioSink h).
Definition maxBufferSize (h : Harness) : Z := maxBufferSizeInFrames (mAudioSink h).

(** What happened since the note before, as one call of [onBeforeNoteOn]
    sees it: the active time of the timer, the underrun count of the sink,
    the frames rendered in between. *)
Record NoteInput : Type := mkNoteInput {
  activeTime : Z;
  underruns : Z;
  framesRendered : Z
}.

Definition beforeNote (i : NoteInput) (h : Harness) : Harness :=
  let sink := mAudioSink h in
  set_mTimer (activeTime i)
    (set_mFrameCounter (add32 (mFrameCounter h) (framesRendered i))
       (set_mAudioSink
          (mkSink (bufferSizeInFrames sink) (maxBufferSizeInFrames sink) (underruns i))
          h)).

Definition afterNote (h : Harness) : Harness :=
  set_mNoteCounter (add32 (mNoteCounter h) 1) h.

(** One entry for each call of [onBeforeNoteOn]: the object the call found,
    the object it left, the status it returned. *)
Definition ProbeCall : Type := (Harness * Harness * ResultCode)%type.

Definition callBefore (c : ProbeCall) : Harness := fst (fst c).
Definition callAfter (c : ProbeCall) : Harness := snd (fst c).
Definition callStatus (c : ProbeCall) : ResultCode := snd c.

(** Modelled from the spec: the note loop of [TestHarnessBase::runTest],
    which is not among the sources.  Every note calls [onBeforeNoteOn]; a
    status other than success ends the run ("propagated up as the run's
    terminal result"), success lets the note play and the counter advance. *)
Fixpoint probeTrace (h : Harness) (inputs : list NoteInput) : list ProbeCall :=
  match inputs with
  | [] => []
  | i :: rest =>
      let pre := beforeNote i h in
      let '(post, status) := onBeforeNoteOn pre in
      (pre, post, status) ::
      match status with
      | SYNTHMARK_RESULT_SUCCESS => probeTrace (afterNote post) rest
      | SYNTHMARK_RESULT_UNRECOVERABLE_ERROR => []
      end
  end.

(** The same loop, returning the harness and the status the run ends with. *)
Fixpoint probeRun (h : Harness) (inputs : list NoteInput) : Harness * ResultCode :=
  match inputs with
  | [] => (h, SYNTHMARK_RESULT_SUCCESS)
  | i :: rest =>
      let '(post, status) := onBeforeNoteOn (beforeNote i h) in
      match status with
      | SYNTHMARK_RESULT_SUCCESS => probeRun (afterNote post) rest
      | SYNTHMARK_RESULT_UNRECOVERABLE_ERROR => (post, status)
      end
  end.

(** The number of calls of a run that saw an underrun delta. *)
Definition underrunEvents (h : Harness) (inputs : list NoteInput) : nat :=
  length (filter (fun c => underrunObserved (callBefore c)) (probeTrace h inputs)).

(** The buffer sizes of a run, in order: the size at its start, then the
    size each call of [onBeforeNoteOn] left. *)
Definition bufferSizes (h : Harness) (inputs : list NoteInput) : list Z :=
  bufferSize h :: map (fun c => bufferSize (callAfter c)) (probeTrace h inputs).

(** [l] never goes down from one element to the next. *)
Fixpoint nonDecreasing (l : list Z) : Prop :=
  match l with
  | [] => True
  | x :: rest =>
      match rest with
      | [] => True
      | y :: _ => x <= y /\ nonDecreasing rest
      end
  end.

(** The frame and note counters are 0 after every call that saw an underrun
    delta. *)
Definition restartedOnUnderrun (c : ProbeCall) : Prop :=
  underrunObserved (callBefore c) = true ->
  callStatus c = SYNTHMARK_RESULT_SUCCESS /\
  mFrameCounter (callAfter c) = 0 /\
  mNoteCounter (callAfter c) = 0 /\
  bufferSize (callAfter c) = bufferSize (callBefore c) + mFramesPerBurst (callBefore c).

(** What the search keeps true of the harness from call to call. *)
Definition searchInvariant (h : Harness) : Prop :=
  0 <= mFramesPerBurst h /\
  int32 (maxBufferSize h) /\
  maxBufferSize h + mFramesPerBurst h <= INT32_MAX /\
  INT32_MIN <= bufferSize h <= maxBufferSize h.

(* ================================================================= *)
(** ** The glitch monitor *)

(** What the [printf] of [monitorCallback] prints. *)
Record Notification : Type := mkNotification {
  noteGlitchTime : spec_float;
  noteBufferSize : Z;
  noteBursts : Z;
  noteFramesPerBurst : Z
}.

(** The body of the loop of [monitorCallback] after the sleep, for the
    buffer size [current] it read: the lines printed and the new value of
    [previousBufferSize].  The [printf] divides the size by the burst size;
    where this division is undefined the process dies before it prints. *)
Definition monitorPoll (h : Harness) (previous current : Z)
    : option (list Notification * Z) :=
  if negb (current =? previous) then
    match div32 current (mFramesPerBurst h) with
    | None => None
    | Some bursts =>
        Some ([mkNotification (mGlitchTime h) current bursts (mFramesPerBurst h)],
              current)
    end
  else Some ([], previous).

(** [monitorCallback] as a sequential program.  The other thread decides
    what the monitor reads; [reads] lists, for each turn of the loop, the
    value of [mMonitorEnabled] at the loop test and the harness as it is when
    the sleep ends.  The loop leaves when it reads the flag as false. *)
Fixpoint monitorLoop (previous : Z) (reads : list (bool * Harness))
    : option (list Notification) :=
  match reads with
  | [] => Some []
  | (enabled, h) :: rest =>
      if enabled then
        match monitorPoll h previous (bufferSize h) with
        | None => None
        | Some (out, previous') =>
            match monitorLoop previous' rest with
            | None => None
            | Some more => Some (out ++ more)
            end
        end
      else Some []
  end.

Definition monitorCallback (h : Harness) (reads : list (bool * Harness))
    : option (list Notification) :=
  monitorLoop (bufferSize h) reads.

(** The sizes among [sizes] that differ from the size just before them,
    [previous] being the size before the first. *)
Fixpoint sizeChanges (previous : Z) (sizes : list Z) : list Z :=
  match sizes with
  | [] => []
  | s :: rest =>
      if s =? previous then sizeChanges s rest else s :: sizeChanges s rest
  end.

(** The sizes the monitor reads until it reads the flag as false. *)
Fixpoint polledSizes (reads : list (bool * Harness)) : list Z :=
  match reads with
  | [] => []
  | (enabled, h) :: rest => if enabled then bufferSize h :: polledSizes rest else []
  end.

(** Where the main thread is in [runTest]. *)
Inductive MainPc : Type :=
| RunTestEntry
| RunTestBody
| StopJoining
| RunTestReturned.

(** The harness shared by the two threads, the place of the monitor thread
    when one was started, the place of the main thread and what the monitor
    has printed. *)
Record System : Type := mkSystem {
  harness : Harness;
  monitor : option MonitorPc;
  mainPc : MainPc;
  printed : list Notification
}.

(** The atomic steps of the two threads.  [ActStart ok] is
    [startMonitorCallback], [ok] telling whether the thread started.
    [ActBegin], [ActNote] and [ActEnd] are the hooks that
    [TestHarnessBase::runTest] calls.  [ActStopRequest] is
    [stopMonitorCallback] up to the call of [join], [ActJoin] is the return
    of [join] and the rest of [stopMonitorCallback].  [ActSetBufferSize] is
    any other caller of the sink.  [ActMonitor] lets the monitor thread move
    to its next program point. *)
Inductive Action : Type :=
| ActStart (ok : bool)
| ActBegin
| ActNote (i : NoteInput)
| ActEnd
| ActStopRequest
| ActJoin
| ActSetBufferSize (numFrames : Z)
| ActMonitor.

(** [startMonitorCallback]: what it does to the harness.  When the thread
    does not start, the object is deleted and the pointer reset. *)
Definition startMonitorCallback (ok : bool) (h : Harness) : Harness :=
  let h1 := set_mMonitorEnabled true h in
  if ok then set_mMonitorThread (Some hostThread) h1
  else set_mMonitorThread None h1.

(** One step of the thread running [monitorCallback]; [None] when there is
    no thread, when it has finished, and when the step kills the process. *)
Definition monitorStep (s : System) : option System :=
  let h := harness s in
  match monitor s with
  | Some ThreadEntry =>
      Some (mkSystem h (Some (ThreadLoopTest (bufferSize h))) (mainPc s) (printed s))
  | Some (ThreadLoopTest previous) =>
      if mMonitorEnabled h then
        Some (mkSystem h (Some (ThreadSleeping previous)) (mainPc s) (printed s))
      else
        Some (mkSystem h (Some ThreadFinished) (mainPc s) (printed s))
  | Some (ThreadSleeping previous) =>
      match monitorPoll h previous (bufferSize h) with
      | None => None
      | Some (out, previous') =>
          Some (mkSystem h (Some (ThreadLoopTest previous')) (mainPc s)
                  (printed s ++ out))
      end
  | Some ThreadFinished => None
  | None => None
  end.

(** One step of the system; [None] when the action cannot happen in [s] and
    when it kills the process.  A thread that starts is at the entry of
    [monitorCallback].  [join] returns only when the thread has finished;
    the object is deleted and the pointer reset after that. *)
Definition step (a : Action) (s : System) : option System :=
  let h := harness s in
  match a, mainPc s with
  | ActStart ok, RunTestEntry =>
      Some (mkSystem (startMonitorCallback ok h)
              (if ok then Some ThreadEntry else monitor s) RunTestBody (printed s))
  | ActBegin, RunTestBody =>
      Some (mkSystem (onBeginMeasurement h) (monitor s) RunTestBody (printed s))
  | ActNote i, RunTestBody =>
      Some (mkSystem (fst (onBeforeNoteOn (beforeNote i h))) (monitor s) RunTestBody
              (printed s))
  | ActEnd, RunTestBody =>
      match onEndMeasurement h with
      | Some h' => Some (mkSystem h' (monitor s) RunTestBody (printed s))
      | None => None
      end
  | ActStopRequest, RunTestBody =>
      match mMonitorThread h with
      | Some _ =>
          Some (mkSystem (set_mMonitorEnabled false h) (monitor s) StopJoining (printed s))
      | None => Some (mkSystem h (monitor s) RunTestReturned (printed s))
      end
  | ActJoin, StopJoining =>
      match monitor s with
      | Some ThreadFinished =>
          Some (mkSystem (set_mMonitorThread None h) (monitor s) RunTestReturned
                  (printed s))
      | _ => None
      end
  | ActSetBufferSize n, _ =>
      Some (mkSystem (set_mAudioSink (fst (setBufferSizeInFrames (mAudioSink h) n)) h)
              (monitor s) (mainPc s) (printed s))
  | ActMonitor, _ => monitorStep s
  | _, _ => None
  end.

(** A schedule: the steps of both threads in the order they happen. *)
Fixpoint exec (schedule : list Action) (s : System) : option System :=
  match schedule with
  | [] => Some s
  | a :: rest =>
      match step a s with
      | None => None
      | Some s' => exec rest s'
      end
  end.

(** The system before [runTest] is called: no monitor thread yet. *)
Definition initialSystem (h : Harness) : System :=
  mkSystem (set_mMonitorThread None h) None RunTestEntry [].

(** The steps in which the monitor compares the size it reads with the size
    it saw last. *)
Definition isPoll (a : Action) (s : System) : bool :=
  match a, monitor s with
  | ActMonitor, Some (ThreadSleeping _) => true
  | _, _ => false
  end.

(** No thread runs before [runTest] starts one nor after it returned, and
    inside [runTest] a null [mMonitorThread] means that none was started. *)
Definition noThreadOutsideRun (s : System) : Prop :=
  match mainPc s with
  | RunTestEntry => monitor s = None
  | RunTestBody => mMonitorThread (harness s) = None -> monitor s = None
  | StopJoining => True
  | RunTestReturned => monitor s = None \/ monitor s = Some ThreadFinished
  end.

(** The thread has left its loop only after it has read [mMonitorEnabled]
    as false, and the flag is not set again. *)
Definition finishedAfterStop (s : System) : Prop :=
  monitor s = Some ThreadFinished -> mMonitorEnabled (harness s) = false.

(* ================================================================= *)
(** ** Notions used to state further properties *)

(** The ramp of the LinearLoop mode: the value for the note n of a run that
    started the ramp at the low count, 5 notes to a step and
    [(high - low) / 5 + 1] steps to a ramp. *)
Definition sawtooth (low high n : Z) : Z :=
  low + 5 * ((n / 5) mod ((high - low) / 5 + 1)).

(** The harness without the two members that belong to the monitor. *)
Definition probeView (h : Harness) : Harness :=
  set_mMonitorEnabled true (set_mMonitorThread None h).

(** What an action does to the harness when only the main thread is looked
    at: the hooks of the probe and the other callers of the sink act, the
    steps that start, stop and run the monitor do not. *)
Definition mainStep (h : Harness) (a : Action) : option Harness :=
  match a with
  | ActBegin => Some (onBeginMeasurement h)
  | ActNote i => Some (fst (onBeforeNoteOn (beforeNote i h)))
  | ActEnd => onEndMeasurement h
  | ActSetBufferSize n =>
      Some (set_mAudioSink (fst (setBufferSizeInFrames (mAudioSink h) n)) h)
  | ActStart _ | ActStopRequest | ActJoin | ActMonitor => Some h
  end.

(** The actions of a schedule on a harness without a monitor. *)
Fixpoint mainRun (schedule : list Action) (h : Harness) : option Harness :=
  match schedule with
  | [] => Some h
  | a :: rest =>
      match mainStep h a with
      | None => None
      | Some h' => mainRun rest h'
      end
  end.

(** No two neighbours of [l] are equal. *)
Fixpoint adjacentDistinct (l : list Z) : Prop :=
  match l with
  | [] => True
  | x :: rest =>
      match rest with
      | [] => True
      | y :: _ => x <> y /\ adjacentDistinct rest
      end
  end.

(** The last element of [l], if any. *)
Fixpoint lastSize (l : list Z) : option Z :=
  match l with
  | [] => None
  | x :: rest =>
      match rest with
      | [] => Some x
      | _ :: _ => lastSize rest
      end
  end.

(** The notifications a monitor that reads its flag as false may still
    print: one when it is in its sleep, none elsewhere. *)
Definition pendingNotifications (s : System) : nat :=
  match monitor s with
  | Some (ThreadSleeping _) => 1
  | _ => 0
  end.

(** The buffer sizes of the notifications printed so far. *)
Definition printedSizes (s : System) : list Z := map noteBufferSize (printed s).

(** What the monitor thread keeps true of what it has printed: nothing is
    printed before the thread has read the size for the first time, and after
    that the size it saw last is the size it printed last, if it printed. *)
Definition monitorRemembersLastPrint (s : System) : Prop :=
  adjacentDistinct (printedSizes s) /\
  (mainPc s = RunTestEntry -> monitor s = None /\ printed s = []) /\
  match monitor s with
  | Some ThreadEntry => printed s = []
  | Some (ThreadLoopTest previous) | Some (ThreadSleeping previous) =>
      lastSize (printedSizes s) = None \/ lastSize (printedSizes s) = Some previous
  | Some ThreadFinished | None => True
  end.

(** Inside [runTest] a thread runs when [mMonitorThread] is not null, and
    while the main thread waits in [join] there is a thread and the flag is
    false. *)
Definition stopRequested (s : System) : Prop :=
  match mainPc s with
  | RunTestEntry => True
  | RunTestBody => mMonitorThread (harness s) <> None -> monitor s <> None
  | StopJoining => mMonitorEnabled (harness s) = false /\ monitor s <> None
  | RunTestReturned => True
  end.

(** The main thread has asked the monitor to stop, or has returned from
    [join]. *)
Definition stopping (s : System) : Prop :=
  (mainPc s = StopJoining /\ mMonitorEnabled (harness s) = false) \/
  (mainPc s = RunTestReturned /\
   (monitor s = None \/ monitor s = Some ThreadFinished)).

(** [startMonitorCallback] could not start the thread. *)
Definition monitorOff (s : System) : Prop :=
  mMonitorThread (harness s) = None /\ monitor s = None /\ printed s = [] /\
  mainPc s <> RunTestEntry.

Section RandomCounts.

Context {R : Type} `{LibcRand R}.

(** The counts of a run in Random mode as a function of the note counters
    [notes] and of the state [rs] of [rand()] alone: at every update (a note
    counter that is a multiple of 5) the low count plus the next number of
    [rand()] modulo the size [high - low + 1] of the range, between two
    updates the count of the last update ([last] before the first). *)
Fixpoint randomCounts (rs : R) (low high last : Z) (notes : list Z) : list Z :=
  match notes with
  | [] => []
  | n :: rest =>
      if Z.rem n 5 =? 0 then
        let v := low + snd (rand rs) mod (high - low + 1) in
        v :: randomCounts (fst (rand rs)) low high v rest
      else last :: randomCounts rs low high last rest
  end.

End RandomCounts.

(** How many of the numbers 0, ..., [randMax] that [rand()] can return make
    the draw of the Random mode equal to [v]. *)
Definition drawsGiving (h : Harness) (randMax : Z) (v : Z) : Z :=
  fst (Z.iter (randMax + 1)
         (fun '(count, r) =>
            (if randomVoices h r =? v then count + 1 else count, r + 1))
         (0, 0)).

(* ================================================================= *)
(** ** Concrete harnesses *)

Definition emptyResult : SynthMarkResult := mkSynthMarkResult [] None None.

(** A harness at 48000 Hz on a sink that holds at most [maxFrames] frames. *)
Definition exampleHarness (framesPerBurst maxFrames : Z) : Harness :=
  mkHarness (mkSink 0 maxFrames 0) emptyResult 48000 framesPerBurst 0 0 0 10 0
    0 VOICES_SWITCH None true (S754_zero false).

(** A harness with the voices mode and the low and high voice counts given. *)
Definition exampleVoices (mode : VoicesMode) (low high : Z) : Harness :=
  mkHarness (mkSink 0 1000 0) emptyResult 48000 192 0 0 0 low high
    0 mode None true (S754_zero false).

(** Four notes: the sink has counted 3 underruns before the timer runs, and
    counts a fourth before the last note. *)
Definition exampleNotes : list NoteInput :=
  [mkNoteInput 0 3 960; mkNoteInput 5000 3 960; mkNoteInput 9000 3 960;
   mkNoteInput 13000 4 960].

(** Notes during which the sink counts no underrun. *)
Definition quietNotes : list NoteInput :=
  [mkNoteInput 0 0 960; mkNoteInput 5000 0 960; mkNoteInput 9000 0 960].

(** The note counters 0, 1, ..., k - 1. *)
Definition firstNotes (k : nat) : list Z := map Z.of_nat (seq 0 k).

(** A call of [runTest] during which the buffer grows once, and two changes
    of the buffer size after it returned. *)
Definition exampleSchedule : list Action :=
  [ActStart true; ActMonitor; ActBegin; ActMonitor; ActMonitor;
   ActNote (mkNoteInput 5000 1 960); ActMonitor; ActMonitor; ActMonitor; ActMonitor;
   ActEnd; ActStopRequest; ActMonitor; ActJoin].

Definition exampleAftermath : list Action :=
  [ActSetBufferSize 500; ActSetBufferSize 700].

(* ================================================================= *)
(** * Properties *)

(** ** Machine arithmetic *)

Lemma wrap32_small (z : Z) : int32 z -> wrap32 z = z.
Proof.
  unfold int32, INT32_MIN, INT32_MAX, wrap32. intros Hz.
  rewrite Z.mod_small; lia.
Qed.

Lemma wrap32_range (z : Z) : int32 (wrap32 z).
Proof.
  unfold int32, INT32_MIN, INT32_MAX, wrap32.
  pose proof (Z.mod_pos_bound (z + 2 ^ 31) (2 ^ 32)). lia.
Qed.

Lemma add32_small (a b : Z) : int32 (a + b) -> add32 a b = a + b.
Proof. apply wrap32_small. Qed.

Lemma sub32_small (a b : Z) : int32 (a - b) -> sub32 a b = a - b.
Proof. apply wrap32_small. Qed.

Lemma div32_positive (a b : Z) : 0 < b -> div32 a b = Some (Z.quot a b).
Proof.
  intros Hb. unfold div32.
  destruct (Z.eqb_spec b 0); [ lia | ].
  destruct (Z.eqb_spec b (-1)); [ lia | ].
  rewrite andb_false_r. reflexivity.
Qed.

(* ----------------------------------------------------------------- *)
(** ** One call of [onBeforeNoteOn], for any sink *)

Section ProbeCall.

Context {S : Type} `{AudioSinkBase S}.

Lemma underrunObserved_true (h : LatencyMarkHarness S) :
  underrunObserved h = true <->
  0 < mTimer h /\ mPreviousUnderrunCount h < getUnderrunCount (mAudioSink h).
Proof.
  unfold underrunObserved. rewrite andb_true_iff, !Z.ltb_lt. tauto.
Qed.

Lemma underrunObserved_false (h : LatencyMarkHarness S) :
  underrunObserved h = false <->
  mTimer h <= 0 \/ getUnderrunCount (mAudioSink h) <= mPreviousUnderrunCount h.
Proof.
  unfold underrunObserved. rewrite andb_false_iff, !Z.ltb_ge. tauto.
Qed.

Lemma onBeforeNoteOn_quiet (h : LatencyMarkHarness S) :
  underrunObserved h = false ->
  onBeforeNoteOn h = (h, SYNTHMARK_RESULT_SUCCESS).
Proof.
  unfold underrunObserved, onBeforeNoteOn. intros Hq.
  destruct (0 <? mTimer h); [ | reflexivity ].
  cbn in Hq. rewrite Hq. reflexivity.
Qed.

(** What a call that saw an underrun delta does, by the answer of the sink. *)
Lemma onBeforeNoteOn_underrun (h : LatencyMarkHarness S) :
  underrunObserved h = true ->
  let h1 := set_mPreviousUnderrunCount (getUnderrunCount (mAudioSink h)) h in
  let desired := add32 (getBufferSizeInFrames (mAudioSink h)) (mFramesPerBurst h) in
  let reply := setBufferSizeInFrames (mAudioSink h) desired in
  let h2 := set_mAudioSink (fst reply) h1 in
  onBeforeNoteOn h =
  if snd reply <? desired then (h2, SYNTHMARK_RESULT_UNRECOVERABLE_ERROR)
  else (restart (set_mGlitchTime
                   (float_div (float_of_int32 (mFrameCounter h))
                              (float_of_int32 (mSampleRate h))) h2),
        SYNTHMARK_RESULT_SUCCESS).
Proof.
  unfold underrunObserved, onBeforeNoteOn. intros Hu.
  apply andb_true_iff in Hu. destruct Hu as [Ht Hc].
  rewrite Ht, Hc. cbn.
  destruct (setBufferSizeInFrames (mAudioSink h)
              (add32 (getBufferSizeInFrames (mAudioSink h)) (mFramesPerBurst h)))
    as [sink actual].
  reflexivity.
Qed.

(** C10.  A call of [onBeforeNoteOn] that sees no new underrun, because the
    active time of the timer is not yet positive or because the underrun
    count of the sink does not exceed the recorded baseline, returns success
    and leaves the whole harness as it was: buffer size, baseline, frame and
    note counters and glitch time included. *)
Theorem onBeforeNoteOn_no_underrun_unchanged (h : LatencyMarkHarness S) :
  mTimer h <= 0 \/ getUnderrunCount (mAudioSink h) <= mPreviousUnderrunCount h ->
  onBeforeNoteOn h = (h, SYNTHMARK_RESULT_SUCCESS).
Proof.
  intros Hq. apply onBeforeNoteOn_quiet, underrunObserved_false, Hq.
Qed.

(** C2.  A call of [onBeforeNoteOn] that sees an underrun delta and gets from
    the sink a size smaller than the size it asked for (current size plus one
    burst) returns the unrecoverable error.  The harness it leaves differs
    from the one it found in the underrun baseline and in the sink as the one
    request left it; counters, glitch time and result are untouched. *)
Theorem onBeforeNoteOn_unrecoverable (h : LatencyMarkHarness S) :
  let desired := add32 (getBufferSizeInFrames (mAudioSink h)) (mFramesPerBurst h) in
  let reply := setBufferSizeInFrames (mAudioSink h) desired in
  0 < mTimer h ->
  mPreviousUnderrunCount h < getUnderrunCount (mAudioSink h) ->
  snd reply < desired ->
  onBeforeNoteOn h =
  (set_mAudioSink (fst reply)
     (set_mPreviousUnderrunCount (getUnderrunCount (mAudioSink h)) h),
   SYNTHMARK_RESULT_UNRECOVERABLE_ERROR).
Proof.
  intros desired reply Ht Hu Hlt.
  rewrite onBeforeNoteOn_underrun by (apply underrunObserved_true; auto).
  fold desired. fold reply.
  apply Z.ltb_lt in Hlt. rewrite Hlt. reflexivity.
Qed.

Lemma onBeforeNoteOn_keeps_configuration (h : LatencyMarkHarness S) :
  mFramesPerBurst (fst (onBeforeNoteOn h)) = mFramesPerBurst h /\
  mSampleRate (fst (onBeforeNoteOn h)) = mSampleRate h /\
  mResult (fst (onBeforeNoteOn h)) = mResult h /\
  mTimer (fst (onBeforeNoteOn h)) = mTimer h.
Proof.
  destruct (underrunObserved h) eqn:Hu.
  - rewrite (onBeforeNoteOn_underrun h Hu).
    match goal with |- context [if ?c then _ else _] => destruct c end;
      repeat split.
  - rewrite (onBeforeNoteOn_quiet h Hu). repeat split.
Qed.

End ProbeCall.

(* ----------------------------------------------------------------- *)
(** ** The probe on the sink with a maximum *)

Lemma beforeNote_frame (i : NoteInput) (h : Harness) :
  bufferSize (beforeNote i h) = bufferSize h /\
  maxBufferSize (beforeNote i h) = maxBufferSize h /\
  mFramesPerBurst (beforeNote i h) = mFramesPerBurst h /\
  mSampleRate (beforeNote i h) = mSampleRate h /\
  mPreviousUnderrunCount (beforeNote i h) = mPreviousUnderrunCount h /\
  getUnderrunCount (mAudioSink (beforeNote i h)) = underruns i /\
  mTimer (beforeNote i h) = activeTime i.
Proof. repeat split. Qed.

Lemma afterNote_frame (h : Harness) :
  bufferSize (afterNote h) = bufferSize h /\
  maxBufferSize (afterNote h) = maxBufferSize h /\
  mFramesPerBurst (afterNote h) = mFramesPerBurst h /\
  mSampleRate (afterNote h) = mSampleRate h /\
  mPreviousUnderrunCount (afterNote h) = mPreviousUnderrunCount h.
Proof. repeat split. Qed.

Lemma onBeginMeasurement_virtual (h : Harness) :
  bufferSize (onBeginMeasurement h) = Z.min (mFramesPerBurst h) (maxBufferSize h) /\
  maxBufferSize (onBeginMeasurement h) = maxBufferSize h /\
  mFramesPerBurst (onBeginMeasurement h) = mFramesPerBurst h /\
  mSampleRate (onBeginMeasurement h) = mSampleRate h /\
  mPreviousUnderrunCount (onBeginMeasurement h) = 0.
Proof. repeat split. Qed.

(** A call that saw an underrun delta while one more burst fits. *)
Lemma onBeforeNoteOn_grows (h : Harness) :
  underrunObserved h = true ->
  int32 (bufferSize h + mFramesPerBurst h) ->
  bufferSize h + mFramesPerBurst h <= maxBufferSize h ->
  exists post,
    onBeforeNoteOn h = (post, SYNTHMARK_RESULT_SUCCESS) /\
    bufferSize post = bufferSize h + mFramesPerBurst h /\
    maxBufferSize post = maxBufferSize h /\
    mFramesPerBurst post = mFramesPerBurst h /\
    mFrameCounter post = 0 /\
    mNoteCounter post = 0.
Proof.
  intros Hu H32 Hfit.
  rewrite (onBeforeNoteOn_underrun h Hu).
  cbn [setBufferSizeInFrames getBufferSizeInFrames VirtualAudioSink fst snd].
  change (bufferSizeInFrames (mAudioSink h)) with (bufferSize h).
  change (maxBufferSizeInFrames (mAudioSink h)) with (maxBufferSize h).
  rewrite (add32_small _ _ H32).
  rewrite Z.min_l by exact Hfit.
  rewrite Z.ltb_irrefl.
  eexists. split; [ reflexivity | ]. repeat split.
Qed.

(** A call that saw an underrun delta while the sink is too small for one
    more burst. *)
Lemma onBeforeNoteOn_fails (h : Harness) :
  underrunObserved h = true ->
  int32 (bufferSize h + mFramesPerBurst h) ->
  maxBufferSize h < bufferSize h + mFramesPerBurst h ->
  exists post,
    onBeforeNoteOn h = (post, SYNTHMARK_RESULT_UNRECOVERABLE_ERROR) /\
    bufferSize post = maxBufferSize h /\
    maxBufferSize post = maxBufferSize h /\
    mFramesPerBurst post = mFramesPerBurst h.
Proof.
  intros Hu H32 Hbig.
  rewrite (onBeforeNoteOn_underrun h Hu).
  cbn [setBufferSizeInFrames getBufferSizeInFrames VirtualAudioSink fst snd].
  change (bufferSizeInFrames (mAudioSink h)) with (bufferSize h).
  change (maxBufferSizeInFrames (mAudioSink h)) with (maxBufferSize h).
  rewrite (add32_small _ _ H32).
  rewrite Z.min_r by lia.
  destruct (Z.ltb_spec (maxBufferSize h) (bufferSize h + mFramesPerBurst h)); [ | lia ].
  eexists. split; [ reflexivity | ]. repeat split.
Qed.

Lemma probeTrace_cons (h : Harness) (i : NoteInput) (rest : list NoteInput) :
  probeTrace h (i :: rest) =
  (beforeNote i h, fst (onBeforeNoteOn (beforeNote i h)),
   snd (onBeforeNoteOn (beforeNote i h))) ::
  match snd (onBeforeNoteOn (beforeNote i h)) with
  | SYNTHMARK_RESULT_SUCCESS =>
      probeTrace (afterNote (fst (onBeforeNoteOn (beforeNote i h)))) rest
  | SYNTHMARK_RESULT_UNRECOVERABLE_ERROR => []
  end.
Proof.
  cbn [probeTrace]. destruct (onBeforeNoteOn (beforeNote i h)) as [post status].
  reflexivity.
Qed.

Lemma probeRun_cons (h : Harness) (i : NoteInput) (rest : list NoteInput) :
  probeRun h (i :: rest) =
  match snd (onBeforeNoteOn (beforeNote i h)) with
  | SYNTHMARK_RESULT_SUCCESS =>
      probeRun (afterNote (fst (onBeforeNoteOn (beforeNote i h)))) rest
  | SYNTHMARK_RESULT_UNRECOVERABLE_ERROR => onBeforeNoteOn (beforeNote i h)
  end.
Proof.
  cbn [probeRun]. destruct (onBeforeNoteOn (beforeNote i h)) as [post status].
  destruct status; reflexivity.
Qed.

Lemma underrunEvents_cons (h : Harness) (i : NoteInput) (rest : list NoteInput) :
  underrunEvents h (i :: rest) =
  ((if underrunObserved (beforeNote i h) then 1 else 0) +
   match snd (onBeforeNoteOn (beforeNote i h)) with
   | SYNTHMARK_RESULT_SUCCESS =>
       underrunEvents (afterNote (fst (onBeforeNoteOn (beforeNote i h)))) rest
   | SYNTHMARK_RESULT_UNRECOVERABLE_ERROR => 0
   end)%nat.
Proof.
  unfold underrunEvents. rewrite probeTrace_cons. cbn [filter callBefore fst].
  destruct (underrunObserved (beforeNote i h));
    destruct (snd (onBeforeNoteOn (beforeNote i h))); reflexivity.
Qed.

(** The error ends the run: the notes after the failing one are not played
    and the harness stays as the failing call left it. *)
Lemma probeRun_stops_at_error (h : Harness) (i : NoteInput) (rest : list NoteInput) :
  snd (onBeforeNoteOn (beforeNote i h)) = SYNTHMARK_RESULT_UNRECOVERABLE_ERROR ->
  probeRun h (i :: rest) = onBeforeNoteOn (beforeNote i h).
Proof. intros He. rewrite probeRun_cons, He. reflexivity. Qed.

Lemma probeRun_growth (inputs : list NoteInput) :
  forall h : Harness,
  0 < mFramesPerBurst h ->
  int32 (maxBufferSize h) ->
  int32 (bufferSize h) ->
  bufferSize h + Z.of_nat (underrunEvents h inputs) * mFramesPerBurst h
    <= maxBufferSize h ->
  snd (probeRun h inputs) = SYNTHMARK_RESULT_SUCCESS /\
  bufferSize (fst (probeRun h inputs)) =
    bufferSize h + Z.of_nat (underrunEvents h inputs) * mFramesPerBurst h /\
  Forall restartedOnUnderrun (probeTrace h inputs).
Proof.
  induction inputs as [ | i rest IH]; intros h Hfpb Hmax Hsize Hfit.
  - cbn. repeat split; [ lia | constructor ].
  - rewrite underrunEvents_cons in Hfit |- *.
    rewrite probeRun_cons, probeTrace_cons.
    set (pre := beforeNote i h) in *.
    assert (Hpre : bufferSize pre = bufferSize h /\
                   maxBufferSize pre = maxBufferSize h /\
                   mFramesPerBurst pre = mFramesPerBurst h)
      by (repeat split).
    destruct Hpre as (Hps & Hpm & Hpf).
    destruct (underrunObserved pre) eqn:Hu.
    + assert (Hnn : 0 <= Z.of_nat
                (match snd (onBeforeNoteOn pre) with
                 | SYNTHMARK_RESULT_SUCCESS =>
                     underrunEvents (afterNote (fst (onBeforeNoteOn pre))) rest
                 | SYNTHMARK_RESULT_UNRECOVERABLE_ERROR => 0%nat
                 end) * mFramesPerBurst h) by (apply Z.mul_nonneg_nonneg; lia).
      rewrite Nat2Z.inj_add in Hfit |- *. change (Z.of_nat 1) with 1 in *.
      destruct (onBeforeNoteOn_grows pre Hu) as (post & Hcall & Hs & Hm & Hf & Hfc & Hnc).
      { unfold int32, INT32_MIN, INT32_MAX in *. lia. }
      { lia. }
      rewrite Hcall in *. cbn [fst snd] in *.
      destruct (IH (afterNote post)) as (Hr & Hfinal & Htrace).
      { cbn. exact (eq_ind_r (fun z => 0 < z) Hfpb (eq_trans Hf Hpf)). }
      { exact (eq_ind_r int32 Hmax (eq_trans Hm Hpm)). }
      { change (bufferSize (afterNote post)) with (bufferSize post).
        rewrite Hs. unfold int32, INT32_MIN, INT32_MAX in *. lia. }
      { change (bufferSize (afterNote post)) with (bufferSize post).
        change (maxBufferSize (afterNote post)) with (maxBufferSize post).
        change (mFramesPerBurst (afterNote post)) with (mFramesPerBurst post).
        rewrite Hs, Hm, Hf, Hps, Hpm, Hpf. lia. }
      split; [ exact Hr | split ].
      * rewrite Hfinal.
        change (bufferSize (afterNote post)) with (bufferSize post).
        change (mFramesPerBurst (afterNote post)) with (mFramesPerBurst post).
        rewrite Hs, Hf, Hps, Hpf. lia.
      * constructor; [ | exact Htrace ].
        intros _. cbn. repeat split; assumption.
    + rewrite (onBeforeNoteOn_quiet pre Hu) in *. cbn [fst snd] in *.
      cbn [Nat.add] in Hfit |- *.
      destruct (IH (afterNote pre)) as (Hr & Hfinal & Htrace); try assumption.
      split; [ exact Hr | split; [ exact Hfinal | ] ].
      constructor; [ | exact Htrace ].
      intros Hu'. cbn in Hu'. congruence.
Qed.

(** C1.  A search starts, after [onBeginMeasurement], with a buffer of one
    burst.  When its calls of [onBeforeNoteOn] see N underrun deltas and the
    maximum of the sink leaves room for them, the search goes on with
    success, the buffer ends at one burst plus N times [framesPerBurst], and
    every call that saw a delta grew the buffer by one burst and left the
    frame counter and the note counter at 0. *)
Theorem buffer_grows_one_burst_per_underrun (h : Harness) (inputs : list NoteInput) :
  let start := onBeginMeasurement h in
  let N := Z.of_nat (underrunEvents start inputs) in
  0 < mFramesPerBurst h ->
  int32 (maxBufferSize h) ->
  (1 + N) * mFramesPerBurst h <= maxBufferSize h ->
  bufferSize start = mFramesPerBurst h /\
  snd (probeRun start inputs) = SYNTHMARK_RESULT_SUCCESS /\
  bufferSize (fst (probeRun start inputs)) = mFramesPerBurst h + N * mFramesPerBurst h /\
  Forall restartedOnUnderrun (probeTrace start inputs).
Proof.
  intros start N Hfpb Hmax Hfit.
  destruct (onBeginMeasurement_virtual h) as (Hs & Hm & Hf & _).
  fold start in Hs, Hm, Hf.
  assert (HN : 0 <= N * mFramesPerBurst h) by (apply Z.mul_nonneg_nonneg; lia).
  assert (Hone : bufferSize start = mFramesPerBurst h)
    by (rewrite Hs; apply Z.min_l; lia).
  destruct (probeRun_growth inputs start) as (Hr & Hfinal & Htrace).
  - rewrite Hf. exact Hfpb.
  - rewrite Hm. exact Hmax.
  - rewrite Hone. unfold int32, INT32_MIN, INT32_MAX in *. lia.
  - rewrite Hone, Hm, Hf. fold N. lia.
  - rewrite Hone, Hf in Hfinal. auto.
Qed.

(** [onEndMeasurement] with a positive burst size. *)
Lemma onEndMeasurement_positive {S : Type} `{AudioSinkBase S} (h : LatencyMarkHarness S) :
  0 < mFramesPerBurst h ->
  let sizeFrames := getBufferSizeInFrames (mAudioSink h) in
  onEndMeasurement h =
  Some (set_mResult
          (mkSynthMarkResult
             (resultMessages (mResult h) ++
              [mkLatencyReport (mFramesPerBurst h) (Z.quot sizeFrames (mFramesPerBurst h))
                 sizeFrames (latencyMsecOf sizeFrames (mSampleRate h))])
             (Some SYNTHMARK_RESULT_SUCCESS)
             (Some (double_of_int32 sizeFrames))) h).
Proof.
  intros Hpos sizeFrames. unfold onEndMeasurement. fold sizeFrames.
  rewrite (div32_positive sizeFrames (mFramesPerBurst h) Hpos). reflexivity.
Qed.

(** Without a burst size the process dies in [onEndMeasurement]. *)
Lemma onEndMeasurement_zero_burst {S : Type} `{AudioSinkBase S} (h : LatencyMarkHarness S) :
  mFramesPerBurst h = 0 -> onEndMeasurement h = None.
Proof. intros Hzero. unfold onEndMeasurement, div32. rewrite Hzero. reflexivity. Qed.

Lemma probeRun_keeps_configuration (inputs : list NoteInput) :
  forall h : Harness,
  mFramesPerBurst (fst (probeRun h inputs)) = mFramesPerBurst h /\
  mSampleRate (fst (probeRun h inputs)) = mSampleRate h /\
  mResult (fst (probeRun h inputs)) = mResult h.
Proof.
  induction inputs as [ | i rest IH]; intros h; [ repeat split | ].
  rewrite probeRun_cons.
  destruct (onBeforeNoteOn_keeps_configuration (beforeNote i h)) as (Hf & Hs & Hr & _).
  destruct (snd (onBeforeNoteOn (beforeNote i h))).
  - destruct (IH (afterNote (fst (onBeforeNoteOn (beforeNote i h))))) as (Hf' & Hs' & Hr').
    exact (conj (eq_trans Hf' Hf) (conj (eq_trans Hs' Hs) (eq_trans Hr' Hr))).
  - exact (conj Hf (conj Hs Hr)).
Qed.

Lemma bufferSizes_cons (h : Harness) (i : NoteInput) (rest : list NoteInput) :
  bufferSizes h (i :: rest) =
  bufferSize h ::
  match snd (onBeforeNoteOn (beforeNote i h)) with
  | SYNTHMARK_RESULT_SUCCESS =>
      bufferSizes (afterNote (fst (onBeforeNoteOn (beforeNote i h)))) rest
  | SYNTHMARK_RESULT_UNRECOVERABLE_ERROR =>
      [bufferSize (fst (onBeforeNoteOn (beforeNote i h)))]
  end.
Proof.
  unfold bufferSizes. rewrite probeTrace_cons. cbn [map callAfter fst snd].
  destruct (snd (onBeforeNoteOn (beforeNote i h))); reflexivity.
Qed.

Lemma onBeforeNoteOn_monotone (h : Harness) :
  searchInvariant h ->
  bufferSize h <= bufferSize (fst (onBeforeNoteOn h)) /\
  searchInvariant (fst (onBeforeNoteOn h)).
Proof.
  intros (Hfpb & Hmax & Hsum & Hsize).
  destruct (underrunObserved h) eqn:Hu.
  - assert (H32 : int32 (bufferSize h + mFramesPerBurst h))
      by (unfold int32 in *; lia).
    unfold int32 in Hmax.
    destruct (Z_le_gt_dec (bufferSize h + mFramesPerBurst h) (maxBufferSize h))
      as [Hfit | Hbig].
    + destruct (onBeforeNoteOn_grows h Hu H32 Hfit)
        as (post & Hcall & Hs & Hm & Hf & _).
      rewrite Hcall. cbn [fst]. unfold searchInvariant, int32.
      rewrite Hs, Hm, Hf. lia.
    + destruct (onBeforeNoteOn_fails h Hu H32) as (post & Hcall & Hs & Hm & Hf);
        [ lia | ].
      rewrite Hcall. cbn [fst]. unfold searchInvariant, int32.
      rewrite Hs, Hm, Hf. lia.
  - rewrite (onBeforeNoteOn_quiet h Hu). cbn [fst].
    split; [ lia | exact (conj Hfpb (conj Hmax (conj Hsum Hsize))) ].
Qed.

Lemma bufferSizes_head (h : Harness) (inputs : list NoteInput) :
  exists tail, bufferSizes h inputs = bufferSize h :: tail.
Proof. unfold bufferSizes. eexists. reflexivity. Qed.

Lemma probeRun_monotone (inputs : list NoteInput) :
  forall h : Harness,
  searchInvariant h ->
  nonDecreasing (bufferSizes h inputs) /\
  Forall (fun size => size <= maxBufferSize h) (bufferSizes h inputs).
Proof.
  induction inputs as [ | i rest IH]; intros h Hinv.
  - cbn. split; [ exact I | ]. constructor; [ | constructor ].
    destruct Hinv as (_ & _ & _ & Hsize). fold (bufferSize h). lia.
  - rewrite bufferSizes_cons.
    assert (Hpre : searchInvariant (beforeNote i h)) by exact Hinv.
    destruct (onBeforeNoteOn_monotone _ Hpre) as (Hle & Hpost).
    change (bufferSize (beforeNote i h)) with (bufferSize h) in Hle.
    set (post := fst (onBeforeNoteOn (beforeNote i h))) in *.
    assert (Hm : maxBufferSize post = maxBufferSize h).
    { subst post. destruct (underrunObserved (beforeNote i h)) eqn:Hu.
      - rewrite (onBeforeNoteOn_underrun _ Hu).
        match goal with |- context [if ?c then _ else _] => destruct c end;
          reflexivity.
      - rewrite (onBeforeNoteOn_quiet _ Hu). reflexivity. }
    assert (Hh : bufferSize h <= maxBufferSize h)
      by (destruct Hinv as (_ & _ & _ & Hsize); lia).
    assert (Hp : bufferSize post <= maxBufferSize h)
      by (destruct Hpost as (_ & _ & _ & Hsize); lia).
    destruct (snd (onBeforeNoteOn (beforeNote i h))).
    + destruct (IH (afterNote post) Hpost) as (Hnd & Hall).
      destruct (bufferSizes_head (afterNote post) rest) as (tail & Htail).
      rewrite Htail in *.
      change (bufferSize (afterNote post)) with (bufferSize post) in *.
      change (maxBufferSize (afterNote post)) with (maxBufferSize post) in Hall.
      rewrite Hm in Hall.
      split; [ cbn [nonDecreasing]; split; assumption | ].
      constructor; assumption.
    + split; [ cbn; auto | ].
      repeat constructor; assumption.
Qed.

(** C3.  From [onBeginMeasurement] to the end of a search, the buffer size
    never goes down from one call of [onBeforeNoteOn] to the next and never
    exceeds the maximum of the sink; [onEndMeasurement] leaves it as it is,
    and returns when the burst size is positive. *)
Theorem buffer_size_monotone_and_bounded (h : Harness) (inputs : list NoteInput) :
  let start := onBeginMeasurement h in
  0 <= mFramesPerBurst h ->
  int32 (maxBufferSize h) ->
  maxBufferSize h + mFramesPerBurst h <= INT32_MAX ->
  nonDecreasing (bufferSizes start inputs) /\
  Forall (fun size => size <= maxBufferSize h) (bufferSizes start inputs) /\
  (forall final,
     onEndMeasurement (fst (probeRun start inputs)) = Some final ->
     bufferSize final = bufferSize (fst (probeRun start inputs))) /\
  (0 < mFramesPerBurst h ->
   exists final, onEndMeasurement (fst (probeRun start inputs)) = Some final).
Proof.
  intros start Hfpb Hmax Hsum.
  destruct (onBeginMeasurement_virtual h) as (Hs & Hm & Hf & _).
  fold start in Hs, Hm, Hf.
  assert (Hinv : searchInvariant start).
  { unfold searchInvariant. rewrite Hs, Hm, Hf.
    unfold int32, INT32_MIN, INT32_MAX in *. lia. }
  destruct (probeRun_monotone inputs start Hinv) as (Hnd & Hall).
  rewrite Hm in Hall.
  split; [ exact Hnd | split; [ exact Hall | split ] ].
  - intros final Hend. unfold onEndMeasurement in Hend.
    destruct (div32 _ _); [ | discriminate ].
    injection Hend as <-. reflexivity.
  - intros Hpos.
    destruct (probeRun_keeps_configuration inputs start) as (Hcf & _).
    rewrite (onEndMeasurement_positive (fst (probeRun start inputs)))
      by (rewrite Hcf, Hf; exact Hpos).
    eexists. reflexivity.
Qed.

(* ----------------------------------------------------------------- *)
(** ** The report of [onEndMeasurement] *)

(** A run in which the sink never counts an underrun keeps the buffer. *)
Lemma probeRun_no_underruns (inputs : list NoteInput) :
  forall h : Harness,
  mPreviousUnderrunCount h = 0 ->
  Forall (fun i => underruns i = 0) inputs ->
  snd (probeRun h inputs) = SYNTHMARK_RESULT_SUCCESS /\
  bufferSize (fst (probeRun h inputs)) = bufferSize h /\
  mSampleRate (fst (probeRun h inputs)) = mSampleRate h /\
  mFramesPerBurst (fst (probeRun h inputs)) = mFramesPerBurst h.
Proof.
  induction inputs as [ | i rest IH]; intros h Hprev Hzero.
  - cbn. auto.
  - inversion Hzero as [ | i' rest' Hi Hrest ]; subst.
    rewrite probeRun_cons.
    assert (Hq : underrunObserved (beforeNote i h) = false).
    { apply underrunObserved_false. right. cbn. rewrite Hprev, Hi. lia. }
    rewrite (onBeforeNoteOn_quiet _ Hq). cbn [fst snd].
    apply (IH (afterNote (beforeNote i h))); assumption.
Qed.

(** C4.  With a positive burst size, [onEndMeasurement] at the end of a
    search sets the result status to success, the measurement to the buffer
    size in frames, and reports the latency [1000 * sizeFrames / sampleRate]
    computed in double precision.  For a search at 48000 Hz with bursts of
    192 frames in which the sink counts no underrun, the measurement is 192
    and the reported latency is 4.0. *)
Theorem onEndMeasurement_reports_latency (h : Harness) (inputs : list NoteInput) :
  let final := fst (probeRun (onBeginMeasurement h) inputs) in
  (0 < mFramesPerBurst h ->
   exists ended report,
     onEndMeasurement final = Some ended /\
     resultCode (mResult ended) = Some SYNTHMARK_RESULT_SUCCESS /\
     resultMeasurement (mResult ended) = Some (double_of_int32 (bufferSize final)) /\
     resultMessages (mResult ended) = resultMessages (mResult final) ++ [report] /\
     audio_latency_frames report = bufferSize final /\
     audio_latency_msec report =
       double_div (double_mul (double_of_int32 1000) (double_of_int32 (bufferSize final)))
                  (double_of_int32 (mSampleRate final))) /\
  (mSampleRate h = 48000 ->
   mFramesPerBurst h = 192 ->
   192 <= maxBufferSize h ->
   Forall (fun i => underruns i = 0) inputs ->
   snd (probeRun (onBeginMeasurement h) inputs) = SYNTHMARK_RESULT_SUCCESS /\
   exists ended report,
     onEndMeasurement final = Some ended /\
     resultCode (mResult ended) = Some SYNTHMARK_RESULT_SUCCESS /\
     resultMeasurement (mResult ended) = Some (double_of_int32 192) /\
     resultMessages (mResult ended) = resultMessages (mResult final) ++ [report] /\
     audio_latency_frames report = 192 /\
     audio_latency_msec report = double_of_int32 4).
Proof.
  intros final.
  destruct (probeRun_keeps_configuration inputs (onBeginMeasurement h)) as (Hcf & Hcs & _).
  fold final in Hcf, Hcs.
  change (mFramesPerBurst (onBeginMeasurement h)) with (mFramesPerBurst h) in Hcf.
  change (mSampleRate (onBeginMeasurement h)) with (mSampleRate h) in Hcs.
  split.
  - intros Hpos.
    rewrite (onEndMeasurement_positive final) by (rewrite Hcf; exact Hpos).
    eexists _, _. split; [ reflexivity | ]. repeat split.
  - intros Hrate Hfpb Hmax Hzero.
    destruct (onBeginMeasurement_virtual h) as (Hs0 & _ & _ & _ & Hprev).
    destruct (probeRun_no_underruns inputs (onBeginMeasurement h) Hprev Hzero)
      as (Hr & Hs & _).
    fold final in Hs.
    assert (Hsize : getBufferSizeInFrames (mAudioSink final) = 192).
    { change (getBufferSizeInFrames (mAudioSink final)) with (bufferSize final).
      rewrite Hs, Hs0, Hfpb. apply Z.min_l. exact Hmax. }
    split; [ exact Hr | ].
    rewrite (onEndMeasurement_positive final) by (rewrite Hcf, Hfpb; reflexivity).
    cbv zeta. rewrite Hsize, Hcs, Hrate.
    eexists _, _. split; [ reflexivity | ]. repeat split.
Qed.

(* ----------------------------------------------------------------- *)
(** ** The load generator *)

Lemma switchPattern_half_cycle (low high p : Z) :
  0 <= p -> Z.rem (p + 1) 5 <> 0 ->
  switchPattern low high (p + 1) = switchPattern low high p.
Proof.
  intros Hp Hrem. unfold switchPattern.
  rewrite Z.rem_mod_nonneg in Hrem by lia.
  assert (Hsame : ((p + 1) mod 10 <? 5) = (p mod 10 <? 5)).
  { destruct (Z.ltb_spec ((p + 1) mod 10) 5), (Z.ltb_spec (p mod 10) 5);
      try reflexivity; exfalso;
      pose proof (Z.div_mod p 10); pose proof (Z.mod_pos_bound p 10);
      pose proof (Z.div_mod (p + 1) 10); pose proof (Z.mod_pos_bound (p + 1) 10);
      pose proof (Z.div_mod (p + 1) 5); pose proof (Z.mod_pos_bound (p + 1) 5);
      lia. }
  rewrite Hsame. reflexivity.
Qed.

Section LoadGeneratorProperties.

Context {S : Type} `{AudioSinkBase S} {R : Type} `{LibcRand R}.

Implicit Types (h : LatencyMarkHarness S) (g : ProcessGlobals R).

Lemma getCurrentNumVoices_constant h g :
  mNumVoicesHigh h <= 0 -> getCurrentNumVoices h g = Some (g, mNumVoices h).
Proof.
  intros Hhigh. unfold getCurrentNumVoices.
  destruct (Z.ltb_spec 0 (mNumVoicesHigh h)); [ lia | reflexivity ].
Qed.

Lemma getCurrentNumVoices_between h g :
  0 < mNumVoicesHigh h -> Z.rem (mNoteCounter h) 5 <> 0 ->
  getCurrentNumVoices h g = Some (g, lastVoices g).
Proof.
  intros Hhigh Hrem. unfold getCurrentNumVoices, getNoteCounter.
  change (Z.quot NOTES_PER_STEP 2) with 5.
  destruct (Z.ltb_spec 0 (mNumVoicesHigh h)); [ | lia ].
  destruct (Z.eqb_spec (Z.rem (mNoteCounter h) 5) 0); [ contradiction | reflexivity ].
Qed.

Lemma getCurrentNumVoices_update h g :
  0 < mNumVoicesHigh h -> Z.rem (mNoteCounter h) 5 = 0 ->
  getCurrentNumVoices h g =
  match mVoicesMode h with
  | VOICES_LINEAR_LOOP =>
      Some (set_lastVoices (linearLoopVoices h (lastVoices g)) g,
            linearLoopVoices h (lastVoices g))
  | VOICES_RANDOM =>
      if randomRange h =? 0 then None
      else Some (mkGlobals (randomVoices h (snd (rand (randState g))))
                   (fst (rand (randState g))),
                 randomVoices h (snd (rand (randState g))))
  | _ => Some (set_lastVoices (switchVoices h) g, switchVoices h)
  end.
Proof.
  intros Hhigh Hrem. unfold getCurrentNumVoices, getNoteCounter.
  change (Z.quot NOTES_PER_STEP 2) with 5.
  destruct (Z.ltb_spec 0 (mNumVoicesHigh h)); [ | lia ].
  rewrite Hrem. cbn [Z.eqb].
  destruct (mVoicesMode h); try reflexivity.
  destruct (rand (randState g)) as [rs r]. reflexivity.
Qed.

Lemma switchVoices_pattern h :
  0 <= mNoteCounter h ->
  switchVoices h = switchPattern (mNumVoices h) (mNumVoicesHigh h) (mNoteCounter h).
Proof.
  intros Hn. unfold switchVoices, switchPattern, getNoteCounter, getNumVoices.
  change (Z.quot NOTES_PER_STEP 2) with 5. change NOTES_PER_STEP with 10.
  rewrite Z.rem_mod_nonneg by lia. reflexivity.
Qed.

(** In Switch mode the static holds the value of the pattern at the note
    counter of the call before, so a call between two updates returns the
    value of the pattern at its own note counter. *)
Lemma switch_run (notes : list Z) :
  forall h g prev,
  mVoicesMode h = VOICES_SWITCH ->
  0 < mNumVoicesHigh h ->
  prev = -1 \/
    (0 <= prev /\ lastVoices g = switchPattern (mNumVoices h) (mNumVoicesHigh h) prev) ->
  countsFrom prev notes ->
  exists g',
    voicesForNotes h g notes =
    Some (g', map (switchPattern (mNumVoices h) (mNumVoicesHigh h)) notes).
Proof.
  induction notes as [ | n rest IH]; intros h g prev Hmode Hhigh Hprev Hcount.
  - exists g. reflexivity.
  - destruct Hcount as [Hn Hrest].
    assert (Hn0 : 0 <= n) by (destruct Hprev as [ | [ ] ]; lia).
    cbn [voicesForNotes map].
    destruct (Z.eq_dec (Z.rem n 5) 0) as [Hrem | Hrem].
    + rewrite getCurrentNumVoices_update by assumption.
      cbn [mVoicesMode set_mNoteCounter]. rewrite Hmode.
      rewrite switchVoices_pattern by exact Hn0.
      cbn [mNoteCounter mNumVoices mNumVoicesHigh set_mNoteCounter].
      destruct (IH h (set_lastVoices
                        (switchPattern (mNumVoices h) (mNumVoicesHigh h) n) g) n)
        as [g' Hg']; try assumption.
      { right. split; [ exact Hn0 | reflexivity ]. }
      rewrite Hg'. exists g'. reflexivity.
    + rewrite getCurrentNumVoices_between by assumption.
      assert (Hsucc : n = prev + 1 /\ 0 <= prev).
      { destruct Hn as [Hn | Hn]; [ | subst n; cbn in Hrem; congruence ].
        destruct Hprev as [Hp | [Hp _] ]; [ subst; cbn in Hrem; congruence | ].
        split; assumption. }
      destruct Hsucc as [Hsucc Hp0]. subst n.
      assert (Hlast : lastVoices g =
                      switchPattern (mNumVoices h) (mNumVoicesHigh h) (prev + 1)).
      { destruct Hprev as [Hp | [_ Hl] ]; [ lia | ].
        rewrite Hl. symmetry. apply switchPattern_half_cycle; assumption. }
      destruct (IH h g (prev + 1)) as [g' Hg']; try assumption.
      { right. split; assumption. }
      rewrite Hg', Hlast. exists g'. reflexivity.
Qed.

(** C5.  In Switch mode with a high voice count configured, a run that asks
    the generator once for each note, counting from 0 and from 0 again after
    each restart, gets for the note n the low count when n mod 10 is in 0..4
    and the high count when it is in 5..9.  The values depend on the note
    counters alone: the state the process was in before plays no part. *)
Theorem switch_mode_follows_pattern h g (notes : list Z) :
  mVoicesMode h = VOICES_SWITCH ->
  0 < mNumVoicesHigh h ->
  countsFrom (-1) notes ->
  exists g',
    voicesForNotes h g notes =
    Some (g', map (fun n => if n mod 10 <? 5 then mNumVoices h else mNumVoicesHigh h)
                  notes).
Proof.
  intros Hmode Hhigh Hcount.
  apply (switch_run notes h g (-1) Hmode Hhigh); [ left; reflexivity | exact Hcount ].
Qed.

End LoadGeneratorProperties.

Section LoadGeneratorModes.

Context {S : Type} `{AudioSinkBase S} {R : Type} `{LibcRand R}.

Implicit Types (h : LatencyMarkHarness S) (g : ProcessGlobals R).

(** *** LinearLoop *)

Lemma linearLoopVoices_inside h (last : Z) :
  int32 (last + 5) ->
  mNumVoices h <= last + 5 <= mNumVoicesHigh h ->
  linearLoopVoices h last = last + 5.
Proof.
  intros H32 Hin. unfold linearLoopVoices, getNumVoices.
  change (Z.quot NOTES_PER_STEP 2) with 5. rewrite (add32_small _ _ H32).
  destruct (Z.ltb_spec (mNumVoicesHigh h) (last + 5)); [ lia | ].
  destruct (Z.ltb_spec (last + 5) (mNumVoices h)); [ lia | reflexivity ].
Qed.

Lemma linearLoopVoices_outside h (last : Z) :
  int32 (last + 5) ->
  mNumVoicesHigh h < last + 5 \/ last + 5 < mNumVoices h ->
  linearLoopVoices h last = mNumVoices h.
Proof.
  intros H32 Hout. unfold linearLoopVoices, getNumVoices.
  change (Z.quot NOTES_PER_STEP 2) with 5. rewrite (add32_small _ _ H32).
  destruct (Z.ltb_spec (mNumVoicesHigh h) (last + 5)); [ reflexivity | ].
  destruct (Z.ltb_spec (last + 5) (mNumVoices h)); [ reflexivity | lia ].
Qed.


(** *** No modulation *)

Lemma voicesForNotes_constant (notes : list Z) h g :
  mNumVoicesHigh h <= 0 ->
  voicesForNotes h g notes = Some (g, map (fun _ => mNumVoices h) notes).
Proof.
  intros Hhigh. induction notes as [ | n rest IH]; [ reflexivity | ].
  cbn [voicesForNotes map].
  rewrite getCurrentNumVoices_constant by exact Hhigh.
  rewrite IH. reflexivity.
Qed.

Lemma update_with_equal_counts h g :
  0 < mNumVoicesHigh h ->
  mNumVoicesHigh h = mNumVoices h ->
  int32 (mNumVoices h) ->
  Z.rem (mNoteCounter h) 5 = 0 ->
  exists g',
    getCurrentNumVoices h g = Some (g', mNumVoices h) /\
    lastVoices g' = mNumVoices h.
Proof.
  intros Hhigh Heq H32 Hrem.
  rewrite (getCurrentNumVoices_update h g Hhigh Hrem).
  assert (Hswitch : switchVoices h = mNumVoices h).
  { unfold switchVoices, getNumVoices. rewrite Heq.
    match goal with |- (if ?c then _ else _) = _ => destruct c end; reflexivity. }
  destruct (mVoicesMode h).
  - rewrite Hswitch. eexists. split; reflexivity.
  - rewrite Hswitch. eexists. split; reflexivity.
  - assert (Hrange : randomRange h = 1).
    { unfold randomRange, getNumVoices, sub32. rewrite Heq, Z.sub_diag.
      reflexivity. }
    assert (Hv : forall r, randomVoices h r = mNumVoices h).
    { intros r. unfold randomVoices, getNumVoices. rewrite Hrange, Z.rem_1_r.
      apply add32_small. exact H32. }
    rewrite Hrange, Hv. cbn [Z.eqb]. eexists. split; reflexivity.
  - assert (Hl : linearLoopVoices h (lastVoices g) = mNumVoices h).
    { unfold linearLoopVoices, getNumVoices. rewrite Heq.
      destruct (Z.ltb_spec (mNumVoices h) (add32 (lastVoices g) (Z.quot NOTES_PER_STEP 2)));
        [ reflexivity | ].
      destruct (Z.ltb_spec (add32 (lastVoices g) (Z.quot NOTES_PER_STEP 2)) (mNumVoices h));
        [ reflexivity | ].
      cbn [orb]. lia. }
    rewrite Hl. eexists. split; reflexivity.
Qed.

Lemma equal_counts_run (notes : list Z) :
  forall h g prev,
  0 < mNumVoicesHigh h ->
  mNumVoicesHigh h = mNumVoices h ->
  int32 (mNumVoices h) ->
  prev = -1 \/ lastVoices g = mNumVoices h ->
  countsFrom prev notes ->
  exists g', voicesForNotes h g notes = Some (g', map (fun _ => mNumVoices h) notes).
Proof.
  induction notes as [ | n rest IH]; intros h g prev Hhigh Heq H32 Hprev Hcount.
  - exists g. reflexivity.
  - destruct Hcount as [Hn Hrest]. cbn [voicesForNotes map].
    destruct (Z.eq_dec (Z.rem n 5) 0) as [Hrem | Hrem].
    + destruct (update_with_equal_counts (set_mNoteCounter n h) g Hhigh Heq H32 Hrem)
        as (g1 & Hcall & Hlast).
      change (mNumVoices (set_mNoteCounter n h)) with (mNumVoices h) in *.
      rewrite Hcall.
      destruct (IH h g1 n Hhigh Heq H32 (or_intror Hlast) Hrest) as [g' Hg'].
      rewrite Hg'. exists g'. reflexivity.
    + rewrite getCurrentNumVoices_between by assumption.
      assert (Hlast : lastVoices g = mNumVoices h).
      { destruct Hprev as [Hp | Hl]; [ | exact Hl ].
        destruct Hn as [Hn | Hn]; subst; cbn in Hrem; congruence. }
      destruct (IH h g n Hhigh Heq H32 (or_intror Hlast) Hrest) as [g' Hg'].
      rewrite Hg', Hlast. exists g'. reflexivity.
Qed.

Lemma constant_updates_run (notes : list Z) :
  forall h g prev,
  0 < mNumVoicesHigh h ->
  (forall n g0, Z.rem n 5 = 0 ->
     exists g1,
       getCurrentNumVoices (set_mNoteCounter n h) g0 = Some (g1, mNumVoices h) /\
       lastVoices g1 = mNumVoices h) ->
  prev = -1 \/ lastVoices g = mNumVoices h ->
  countsFrom prev notes ->
  exists g', voicesForNotes h g notes = Some (g', map (fun _ => mNumVoices h) notes).
Proof.
  induction notes as [ | n rest IH]; intros h g prev Hhigh Hupdate Hprev Hcount.
  - exists g. reflexivity.
  - destruct Hcount as [Hn Hrest]. cbn [voicesForNotes map].
    destruct (Z.eq_dec (Z.rem n 5) 0) as [Hrem | Hrem].
    + destruct (Hupdate n g Hrem) as (g1 & Hcall & Hlast). rewrite Hcall.
      destruct (IH h g1 n Hhigh Hupdate (or_intror Hlast) Hrest) as [g' Hg'].
      rewrite Hg'. exists g'. reflexivity.
    + rewrite getCurrentNumVoices_between by assumption.
      assert (Hlast : lastVoices g = mNumVoices h).
      { destruct Hprev as [Hp | Hl]; [ | exact Hl ].
        destruct Hn as [Hn | Hn]; subst; cbn in Hrem; congruence. }
      destruct (IH h g n Hhigh Hupdate (or_intror Hlast) Hrest) as [g' Hg'].
      rewrite Hg', Hlast. exists g'. reflexivity.
Qed.

Lemma linear_loop_update_high_below_low h g :
  mVoicesMode h = VOICES_LINEAR_LOOP ->
  0 < mNumVoicesHigh h < mNumVoices h ->
  Z.rem (mNoteCounter h) 5 = 0 ->
  exists g1,
    getCurrentNumVoices h g = Some (g1, mNumVoices h) /\ lastVoices g1 = mNumVoices h.
Proof.
  intros Hmode Hhigh Hrem.
  rewrite (getCurrentNumVoices_update h g ltac:(lia) Hrem), Hmode.
  assert (Hv : linearLoopVoices h (lastVoices g) = mNumVoices h).
  { unfold linearLoopVoices, getNumVoices.
    destruct (Z.ltb_spec (mNumVoicesHigh h) (add32 (lastVoices g) (Z.quot NOTES_PER_STEP 2)));
      [ reflexivity | ].
    destruct (Z.ltb_spec (add32 (lastVoices g) (Z.quot NOTES_PER_STEP 2)) (mNumVoices h));
      [ reflexivity | lia ]. }
  rewrite Hv. eexists. split; reflexivity.
Qed.

(** *** Random mode with a high count below the low count *)

Lemma add32_same_iff (x y : Z) :
  int32 y -> 0 <= x < 2 ^ 32 -> (add32 x y = y <-> x = 0).
Proof.
  unfold int32, INT32_MIN, INT32_MAX, add32, wrap32. intros Hy Hx.
  change (2 ^ 31) with 2147483648 in *. change (2 ^ 32) with 4294967296 in *.
  split.
  - intros Hsame.
    pose proof (Z.div_mod (x + y + 2147483648) 4294967296 ltac:(lia)) as Hdiv.
    pose proof (Z.mod_pos_bound (x + y + 2147483648) 4294967296 ltac:(lia)) as Hmod.
    lia.
  - intros ->. rewrite Z.mod_small by lia. lia.
Qed.

Lemma randomRange_high_below_low h :
  int32 (mNumVoices h) -> 0 < mNumVoicesHigh h < mNumVoices h ->
  randomRange h = - (mNumVoices h - mNumVoicesHigh h - 1).
Proof.
  intros Hlow Hhigh. unfold randomRange, getNumVoices.
  unfold int32, INT32_MIN, INT32_MAX in Hlow.
  rewrite sub32_small by (unfold int32, INT32_MIN, INT32_MAX; lia).
  rewrite add32_small by (unfold int32, INT32_MIN, INT32_MAX; lia).
  lia.
Qed.

Lemma random_update_high_below_low h g :
  mVoicesMode h = VOICES_RANDOM ->
  int32 (mNumVoices h) ->
  0 < mNumVoicesHigh h < mNumVoices h - 1 ->
  Z.rem (mNoteCounter h) 5 = 0 ->
  getCurrentNumVoices h g =
  Some (mkGlobals
          (add32 (Z.rem (snd (rand (randState g)))
                    (mNumVoices h - mNumVoicesHigh h - 1)) (mNumVoices h))
          (fst (rand (randState g))),
        add32 (Z.rem (snd (rand (randState g)))
                 (mNumVoices h - mNumVoicesHigh h - 1)) (mNumVoices h)).
Proof.
  intros Hmode Hlow Hhigh Hrem.
  rewrite (getCurrentNumVoices_update h g ltac:(lia) Hrem), Hmode.
  unfold randomVoices.
  rewrite (randomRange_high_below_low h Hlow ltac:(lia)).
  destruct (Z.eqb_spec (- (mNumVoices h - mNumVoicesHigh h - 1)) 0); [ lia | ].
  rewrite Z.rem_opp_r by lia. reflexivity.
Qed.

Lemma random_update_high_two_below_low h g :
  mVoicesMode h = VOICES_RANDOM ->
  int32 (mNumVoices h) ->
  0 < mNumVoicesHigh h ->
  mNumVoicesHigh h = mNumVoices h - 2 ->
  Z.rem (mNoteCounter h) 5 = 0 ->
  exists g1,
    getCurrentNumVoices h g = Some (g1, mNumVoices h) /\ lastVoices g1 = mNumVoices h.
Proof.
  intros Hmode Hlow Hhigh Htwo Hrem.
  rewrite (random_update_high_below_low h g Hmode Hlow ltac:(lia) Hrem).
  replace (mNumVoices h - mNumVoicesHigh h - 1) with 1 by lia.
  rewrite Z.rem_1_r, (add32_small 0 (mNumVoices h) Hlow).
  eexists. split; reflexivity.
Qed.

(** C7, as the code has it.  The generator returns the low voice count for
    every note of a run when the high voice count is zero or negative or
    equal to the low count, in every mode, and when a positive high count is
    below the low count in LinearLoop mode, or two below it in Random mode.
    A positive high count below the low count is not unset in the other
    cases: in Switch mode (and with the mode undefined) the update at a note
    counter n with n mod 10 = 5 returns the high count; in Random mode an
    update divides by zero when the high count is one below the low count,
    and when it is more than two below returns the low count only if the
    number of [rand()] is a multiple of low - high - 1. *)
Theorem constant_load_without_high_count h g (notes : list Z) :
  int32 (mNumVoices h) ->
  (mNumVoicesHigh h <= 0 \/ mNumVoicesHigh h = mNumVoices h \/
   (mVoicesMode h = VOICES_LINEAR_LOOP /\ mNumVoicesHigh h < mNumVoices h) \/
   (mVoicesMode h = VOICES_RANDOM /\ mNumVoicesHigh h = mNumVoices h - 2) ->
   countsFrom (-1) notes ->
   exists g', voicesForNotes h g notes = Some (g', map (fun _ => mNumVoices h) notes)) /\
  (mVoicesMode h = VOICES_SWITCH \/ mVoicesMode h = VOICES_UNDEFINED ->
   0 < mNumVoicesHigh h ->
   0 <= mNoteCounter h -> mNoteCounter h mod 10 = 5 ->
   getCurrentNumVoices h g =
     Some (set_lastVoices (mNumVoicesHigh h) g, mNumVoicesHigh h)) /\
  (mVoicesMode h = VOICES_RANDOM ->
   0 < mNumVoicesHigh h ->
   Z.rem (mNoteCounter h) 5 = 0 ->
   (mNumVoicesHigh h = mNumVoices h - 1 -> getCurrentNumVoices h g = None) /\
   (mNumVoicesHigh h < mNumVoices h - 2 ->
    0 <= snd (rand (randState g)) ->
    exists g' v,
      getCurrentNumVoices h g = Some (g', v) /\
      (v = mNumVoices h <->
       Z.rem (snd (rand (randState g))) (mNumVoices h - mNumVoicesHigh h - 1) = 0))).
Proof.
  intros H32. split; [ | split ].
  - intros Hunset Hcount.
    destruct (Z_le_gt_dec (mNumVoicesHigh h) 0) as [Hle | Hgt].
    { exists g. apply voicesForNotes_constant. exact Hle. }
    destruct Hunset as [Hle | [Heq | [ [Hmode Hlt] | [Hmode Htwo] ] ] ]; [ lia | | | ].
    + apply (equal_counts_run notes h g (-1)); try assumption; [ lia | left; reflexivity ].
    + apply (constant_updates_run notes h g (-1));
        [ lia | | left; reflexivity | exact Hcount ].
      intros n g0 Hrem.
      apply (linear_loop_update_high_below_low (set_mNoteCounter n h) g0 Hmode);
        [ cbn; lia | exact Hrem ].
    + apply (constant_updates_run notes h g (-1));
        [ lia | | left; reflexivity | exact Hcount ].
      intros n g0 Hrem.
      apply (random_update_high_two_below_low (set_mNoteCounter n h) g0 Hmode H32);
        [ cbn; lia | exact Htwo | exact Hrem ].
  - intros Hmode Hhigh Hn Hmod.
    assert (Hrem : Z.rem (mNoteCounter h) 5 = 0).
    { rewrite Z.rem_mod_nonneg by lia.
      pose proof (Z.div_mod (mNoteCounter h) 10 ltac:(lia)) as Hdiv.
      pose proof (Z.div_mod (mNoteCounter h) 5 ltac:(lia)) as Hdiv5.
      pose proof (Z.mod_pos_bound (mNoteCounter h) 5 ltac:(lia)) as Hb5.
      lia. }
    rewrite (getCurrentNumVoices_update h g Hhigh Hrem).
    assert (Hv : switchVoices h = mNumVoicesHigh h).
    { rewrite (switchVoices_pattern h Hn). unfold switchPattern. rewrite Hmod. reflexivity. }
    destruct Hmode as [Hmode | Hmode]; rewrite Hmode, Hv; reflexivity.
  - intros Hmode Hhigh Hrem. split.
    + intros Hone.
      rewrite (getCurrentNumVoices_update h g Hhigh Hrem), Hmode.
      rewrite (randomRange_high_below_low h H32 ltac:(lia)).
      replace (- (mNumVoices h - mNumVoicesHigh h - 1)) with 0 by lia.
      reflexivity.
    + intros Hfar Hrand.
      rewrite (random_update_high_below_low h g Hmode H32 ltac:(lia) Hrem).
      eexists. eexists. split; [ reflexivity | ].
      apply add32_same_iff; [ exact H32 | ].
      pose proof (Z.rem_bound_pos (snd (rand (randState g)))
                    (mNumVoices h - mNumVoicesHigh h - 1) Hrand ltac:(lia)) as Hb.
      unfold int32, INT32_MIN, INT32_MAX in H32.
      change (2 ^ 31) with 2147483648 in *. change (2 ^ 32) with 4294967296. lia.
Qed.

End LoadGeneratorModes.

Section RandomMode.

Context {S : Type} `{AudioSinkBase S} {R : Type} `{LibcRand R}.

Implicit Types (h : LatencyMarkHarness S) (g : ProcessGlobals R).

Lemma randomRange_exact h :
  voiceRange h -> randomRange h = mNumVoicesHigh h - mNumVoices h + 1.
Proof.
  intros (Hlow & Hhigh & Hle & Hdist). unfold randomRange, getNumVoices.
  rewrite sub32_small by (unfold int32, INT32_MIN, INT32_MAX in *; lia).
  apply add32_small. unfold int32, INT32_MIN, INT32_MAX in *. lia.
Qed.

(** The draw is the low count plus the number of [rand()] reduced modulo the
    size of the range, and lies in the range. *)
Lemma randomVoices_in_range h (r : Z) :
  voiceRange h -> 0 <= r ->
  randomVoices h r = mNumVoices h + r mod (mNumVoicesHigh h - mNumVoices h + 1) /\
  mNumVoices h <= randomVoices h r <= mNumVoicesHigh h.
Proof.
  intros Hrange Hr. unfold randomVoices. rewrite (randomRange_exact h Hrange).
  destruct Hrange as (Hlow & Hhigh & Hle & Hdist). unfold getNumVoices.
  rewrite Z.rem_mod_nonneg by lia.
  pose proof (Z.mod_pos_bound r (mNumVoicesHigh h - mNumVoices h + 1)) as Hmod.
  rewrite add32_small by (unfold int32, INT32_MIN, INT32_MAX in *; lia).
  lia.
Qed.

(** Every count of the range is the draw for some number of [rand()], and
    the draw repeats with the size of the range: over a whole number of
    periods each count is drawn equally often. *)
Lemma randomVoices_covers_range h (v : Z) :
  voiceRange h -> mNumVoices h <= v <= mNumVoicesHigh h ->
  randomVoices h (v - mNumVoices h) = v.
Proof.
  intros Hrange Hv.
  destruct (randomVoices_in_range h (v - mNumVoices h) Hrange) as [Heq _]; [ lia | ].
  rewrite Heq, Z.mod_small by lia. lia.
Qed.

Lemma randomVoices_periodic h (r : Z) :
  voiceRange h -> 0 <= r ->
  randomVoices h (r + (mNumVoicesHigh h - mNumVoices h + 1)) = randomVoices h r.
Proof.
  intros Hrange Hr.
  assert (Hk : 0 < mNumVoicesHigh h - mNumVoices h + 1)
    by (destruct Hrange as (_ & _ & Hle & _); lia).
  destruct (randomVoices_in_range h r Hrange Hr) as [Heq _].
  destruct (randomVoices_in_range h (r + (mNumVoicesHigh h - mNumVoices h + 1)) Hrange)
    as [Heq' _]; [ lia | ].
  rewrite Heq, Heq'. f_equal.
  rewrite <- (Z.mul_1_l (mNumVoicesHigh h - mNumVoices h + 1)) at 1.
  apply Z.mod_add. lia.
Qed.

Lemma random_update h g :
  mVoicesMode h = VOICES_RANDOM ->
  0 < mNumVoicesHigh h ->
  voiceRange h ->
  Z.rem (mNoteCounter h) 5 = 0 ->
  getCurrentNumVoices h g =
  Some (mkGlobals (randomVoices h (snd (rand (randState g)))) (fst (rand (randState g))),
        randomVoices h (snd (rand (randState g)))).
Proof.
  intros Hmode Hhigh Hrange Hrem.
  rewrite (getCurrentNumVoices_update h g Hhigh Hrem), Hmode.
  rewrite (randomRange_exact h Hrange).
  destruct Hrange as (_ & _ & Hle & _).
  destruct (Z.eqb_spec (mNumVoicesHigh h - mNumVoices h + 1) 0); [ lia | reflexivity ].
Qed.

(** A run in Random mode returns counts of the range only. *)
Lemma random_run_in_range (notes : list Z) :
  forall h g prev,
  mVoicesMode h = VOICES_RANDOM ->
  0 < mNumVoicesHigh h ->
  voiceRange h ->
  (forall s : R, 0 <= snd (rand s)) ->
  prev = -1 \/ mNumVoices h <= lastVoices g <= mNumVoicesHigh h ->
  countsFrom prev notes ->
  exists g' vs,
    voicesForNotes h g notes = Some (g', vs) /\
    Forall (fun v => mNumVoices h <= v <= mNumVoicesHigh h) vs.
Proof.
  induction notes as [ | n rest IH]; intros h g prev Hmode Hhigh Hrange Hrand Hprev Hcount.
  - exists g, []. split; [ reflexivity | constructor ].
  - destruct Hcount as [Hn Hrest]. cbn [voicesForNotes].
    destruct (Z.eq_dec (Z.rem n 5) 0) as [Hrem | Hrem].
    + rewrite (random_update (set_mNoteCounter n h) g Hmode Hhigh Hrange Hrem).
      destruct (randomVoices_in_range (set_mNoteCounter n h)
                  (snd (rand (randState g))) Hrange (Hrand _)) as [_ Hin].
      set (v := randomVoices (set_mNoteCounter n h) (snd (rand (randState g)))) in *.
      destruct (IH h (mkGlobals v (fst (rand (randState g)))) n
                  Hmode Hhigh Hrange Hrand (or_intror Hin) Hrest)
        as (g' & vs & Hrun & Hall).
      rewrite Hrun. exists g', (v :: vs).
      split; [ reflexivity | constructor; assumption ].
    + rewrite getCurrentNumVoices_between by assumption.
      assert (Hin : mNumVoices h <= lastVoices g <= mNumVoicesHigh h).
      { destruct Hprev as [Hp | Hin]; [ | exact Hin ].
        destruct Hn as [Hn | Hn]; subst; cbn in Hrem; congruence. }
      destruct (IH h g n Hmode Hhigh Hrange Hrand (or_intror Hin) Hrest)
        as (g' & vs & Hrun & Hall).
      rewrite Hrun. exists g', (lastVoices g :: vs).
      split; [ reflexivity | constructor; assumption ].
Qed.

(** Two runs in Random mode that start from the same state of [rand()]
    return the same counts, whatever the static held before. *)
Lemma random_run_same_counts (notes : list Z) :
  forall h g1 g2 prev,
  mVoicesMode h = VOICES_RANDOM ->
  0 < mNumVoicesHigh h ->
  randState g1 = randState g2 ->
  prev = -1 \/ lastVoices g1 = lastVoices g2 ->
  countsFrom prev notes ->
  option_map snd (voicesForNotes h g1 notes) = option_map snd (voicesForNotes h g2 notes).
Proof.
  induction notes as [ | n rest IH]; intros h g1 g2 prev Hmode Hhigh Hrs Hprev Hcount.
  - reflexivity.
  - destruct Hcount as [Hn Hrest]. cbn [voicesForNotes].
    destruct (Z.eq_dec (Z.rem n 5) 0) as [Hrem | Hrem].
    + rewrite !(getCurrentNumVoices_update (set_mNoteCounter n h) _ Hhigh Hrem).
      cbn [mVoicesMode set_mNoteCounter]. rewrite Hmode, Hrs.
      destruct (randomRange (set_mNoteCounter n h) =? 0); reflexivity.
    + rewrite !getCurrentNumVoices_between by assumption.
      assert (Hlast : lastVoices g1 = lastVoices g2).
      { destruct Hprev as [Hp | Hl]; [ | exact Hl ].
        destruct Hn as [Hn | Hn]; subst; cbn in Hrem; congruence. }
      specialize (IH h g1 g2 n Hmode Hhigh Hrs (or_intror Hlast) Hrest).
      rewrite Hlast.
      destruct (voicesForNotes h g1 rest) as [ [g1' vs1] | ],
               (voicesForNotes h g2 rest) as [ [g2' vs2] | ];
        cbn in IH |- *; congruence.
Qed.

(** A run in Random mode returns the counts that [randomCounts] computes
    from the state of [rand()] at its start. *)
Lemma random_run_counts (notes : list Z) :
  forall h g prev last,
  mVoicesMode h = VOICES_RANDOM ->
  0 < mNumVoicesHigh h ->
  voiceRange h ->
  (forall s : R, 0 <= snd (rand s)) ->
  prev = -1 \/ lastVoices g = last ->
  countsFrom prev notes ->
  exists g',
    voicesForNotes h g notes =
    Some (g', randomCounts (randState g) (mNumVoices h) (mNumVoicesHigh h) last notes).
Proof.
  induction notes as [ | n rest IH];
    intros h g prev last Hmode Hhigh Hrange Hrand Hprev Hcount.
  - exists g. reflexivity.
  - destruct Hcount as [Hn Hrest]. cbn [voicesForNotes randomCounts].
    destruct (Z.eqb_spec (Z.rem n 5) 0) as [Hrem | Hrem].
    + rewrite (random_update (set_mNoteCounter n h) g Hmode Hhigh Hrange Hrem).
      destruct (randomVoices_in_range (set_mNoteCounter n h)
                  (snd (rand (randState g))) Hrange (Hrand _)) as [Heq _].
      cbn [mNumVoices mNumVoicesHigh set_mNoteCounter] in Heq. rewrite Heq.
      cbv zeta.
      set (v := mNumVoices h
                + snd (rand (randState g)) mod (mNumVoicesHigh h - mNumVoices h + 1)).
      destruct (IH h (mkGlobals v (fst (rand (randState g)))) n v
                  Hmode Hhigh Hrange Hrand (or_intror eq_refl) Hrest) as [g' Hg'].
      rewrite Hg'. exists g'. reflexivity.
    + rewrite getCurrentNumVoices_between by assumption.
      assert (Hlast : lastVoices g = last).
      { destruct Hprev as [Hp | Hl]; [ | exact Hl ].
        destruct Hn as [Hn | Hn]; subst; cbn in Hrem; congruence. }
      destruct (IH h g n last Hmode Hhigh Hrange Hrand (or_intror Hlast) Hrest)
        as [g' Hg'].
      rewrite Hg', Hlast. exists g'. reflexivity.
Qed.

Lemma countsFrom_seq (k : nat) :
  forall a : nat, countsFrom (Z.of_nat a - 1) (map Z.of_nat (seq a k)).
Proof.
  induction k as [ | k IH]; intros a; [ exact I | ].
  cbn [seq map countsFrom]. split; [ left; lia | ].
  specialize (IH (Datatypes.S a)).
  replace (Z.of_nat (Datatypes.S a) - 1) with (Z.of_nat a) in IH by lia.
  exact IH.
Qed.

Lemma countsFrom_firstNotes (k : nat) : countsFrom (-1) (firstNotes k).
Proof. exact (countsFrom_seq k 0). Qed.


End RandomMode.

(* ----------------------------------------------------------------- *)
(** ** The glitch monitor *)

Lemma monitorPoll_same (h : Harness) (previous : Z) :
  monitorPoll h previous previous = Some ([], previous).
Proof. unfold monitorPoll. rewrite Z.eqb_refl. reflexivity. Qed.

Lemma monitorPoll_changed (h : Harness) (previous current : Z) :
  current <> previous ->
  monitorPoll h previous current =
  match div32 current (mFramesPerBurst h) with
  | None => None
  | Some bursts =>
      Some ([mkNotification (mGlitchTime h) current bursts (mFramesPerBurst h)], current)
  end.
Proof.
  intros Hne. unfold monitorPoll.
  destruct (Z.eqb_spec current previous); [ contradiction | reflexivity ].
Qed.

(** What a poll that returns has printed and remembers. *)
Lemma monitorPoll_some (h : Harness) (previous current : Z)
    (out : list Notification) (previous' : Z) :
  monitorPoll h previous current = Some (out, previous') ->
  previous' = current /\
  (current = previous -> out = []) /\
  (current <> previous -> exists n, out = [n] /\ noteBufferSize n = current).
Proof.
  intros Hpoll. destruct (Z.eq_dec current previous) as [Heq | Hne].
  - subst current. rewrite monitorPoll_same in Hpoll. injection Hpoll as <- <-.
    repeat split. intros Hne. contradiction.
  - rewrite (monitorPoll_changed h previous current Hne) in Hpoll.
    destruct (div32 current (mFramesPerBurst h)) as [bursts | ]; [ | discriminate ].
    injection Hpoll as <- <-.
    split; [ reflexivity | split; [ contradiction | ] ].
    intros _. eexists. split; reflexivity.
Qed.

(** The monitor as a sequential program prints one line for each size it
    reads that differs from the size it read just before, and no other. *)
Lemma monitorLoop_prints_changes (reads : list (bool * Harness)) :
  forall previous out,
  monitorLoop previous reads = Some out ->
  map noteBufferSize out = sizeChanges previous (polledSizes reads).
Proof.
  induction reads as [ | [enabled h] rest IH]; intros previous out Hloop;
    cbn [monitorLoop polledSizes] in *.
  - injection Hloop as <-. reflexivity.
  - destruct enabled; [ | injection Hloop as <-; reflexivity ].
    destruct (monitorPoll h previous (bufferSize h)) as [ [printedNow previous'] | ] eqn:Hpoll;
      [ | discriminate ].
    destruct (monitorLoop previous' rest) as [more | ] eqn:Hrest; [ | discriminate ].
    injection Hloop as <-.
    destruct (monitorPoll_some _ _ _ _ _ Hpoll) as (Hseen & Hsame & Hdiff).
    subst previous'. rewrite map_app, (IH _ _ Hrest). cbn [sizeChanges].
    destruct (Z.eqb_spec (bufferSize h) previous) as [Heq | Hne].
    + rewrite (Hsame Heq). reflexivity.
    + destruct (Hdiff Hne) as (n & -> & Hn). cbn. rewrite Hn. reflexivity.
Qed.

(** With a positive burst size at every poll the loop runs to its end. *)
Lemma monitorLoop_runs (reads : list (bool * Harness)) :
  forall previous,
  Forall (fun r => 0 < mFramesPerBurst (snd r)) reads ->
  exists out, monitorLoop previous reads = Some out.
Proof.
  induction reads as [ | [enabled h] rest IH]; intros previous Hpos;
    cbn [monitorLoop].
  - eexists. reflexivity.
  - inversion Hpos as [ | r rest' Hh Hrest ]; subst. cbn [snd] in Hh.
    destruct enabled; [ | eexists; reflexivity ].
    assert (Hpoll : exists printedNow,
               monitorPoll h previous (bufferSize h) = Some (printedNow, bufferSize h)).
    { destruct (Z.eq_dec (bufferSize h) previous) as [Heq | Hne].
      - rewrite Heq, monitorPoll_same. eexists. reflexivity.
      - rewrite (monitorPoll_changed h previous _ Hne), (div32_positive _ _ Hh).
        eexists. reflexivity. }
    destruct Hpoll as [printedNow Hpoll]. rewrite Hpoll.
    destruct (IH (bufferSize h) Hrest) as [more Hmore]. rewrite Hmore.
    eexists. reflexivity.
Qed.

Lemma onBeforeNoteOn_keeps_monitor {S : Type} `{AudioSinkBase S} (h : LatencyMarkHarness S) :
  mMonitorThread (fst (onBeforeNoteOn h)) = mMonitorThread h /\
  mMonitorEnabled (fst (onBeforeNoteOn h)) = mMonitorEnabled h.
Proof.
  destruct (underrunObserved h) eqn:Hu.
  - rewrite (onBeforeNoteOn_underrun h Hu).
    match goal with |- context [if ?c then _ else _] => destruct c end; split; reflexivity.
  - rewrite (onBeforeNoteOn_quiet h Hu). split; reflexivity.
Qed.

Lemma onEndMeasurement_keeps_monitor {S : Type} `{AudioSinkBase S}
    (h h' : LatencyMarkHarness S) :
  onEndMeasurement h = Some h' ->
  mMonitorThread h' = mMonitorThread h /\ mMonitorEnabled h' = mMonitorEnabled h.
Proof.
  unfold onEndMeasurement. intros Hend.
  destruct (div32 _ _); [ | discriminate ]. injection Hend as <-. split; reflexivity.
Qed.

(** What a step of the monitor thread does, by the place the thread is at.
    It leaves the harness alone. *)
Lemma monitorStep_effect (s s' : System) :
  monitorStep s = Some s' ->
  mainPc s' = mainPc s /\
  harness s' = harness s /\
  match monitor s with
  | Some ThreadEntry =>
      monitor s' = Some (ThreadLoopTest (bufferSize (harness s))) /\
      printed s' = printed s
  | Some (ThreadLoopTest previous) =>
      monitor s' =
        Some (if mMonitorEnabled (harness s) then ThreadSleeping previous
              else ThreadFinished) /\
      printed s' = printed s
  | Some (ThreadSleeping previous) =>
      monitor s' = Some (ThreadLoopTest (bufferSize (harness s))) /\
      exists out,
        monitorPoll (harness s) previous (bufferSize (harness s)) =
          Some (out, bufferSize (harness s)) /\
        printed s' = printed s ++ out
  | Some ThreadFinished | None => False
  end.
Proof.
  unfold monitorStep. intros Hstep.
  destruct (monitor s) as [ [ | previous | previous | ] | ]; try discriminate.
  - injection Hstep as <-. repeat split.
  - destruct (mMonitorEnabled (harness s)) eqn:Hen;
      injection Hstep as <-; cbn; rewrite ?Hen; repeat split.
  - destruct (monitorPoll (harness s) previous (bufferSize (harness s)))
      as [ [out previous'] | ] eqn:Hpoll; [ | discriminate ].
    destruct (monitorPoll_some _ _ _ _ _ Hpoll) as (Hseen & _). subst previous'.
    injection Hstep as <-. repeat split. exists out. split; reflexivity.
Qed.

(** What a step of the main thread, or of another caller of the sink, does
    to the monitor and to the output. *)
Lemma mainAction_effect (a : Action) (s s' : System) :
  a <> ActMonitor ->
  step a s = Some s' ->
  printed s' = printed s /\
  match a with
  | ActStart ok =>
      mainPc s = RunTestEntry /\ mainPc s' = RunTestBody /\
      mMonitorEnabled (harness s') = true /\
      mMonitorThread (harness s') = (if ok then Some hostThread else None) /\
      monitor s' = (if ok then Some ThreadEntry else monitor s)
  | ActStopRequest =>
      mainPc s = RunTestBody /\
      monitor s' = monitor s /\
      mMonitorThread (harness s') = mMonitorThread (harness s) /\
      match mMonitorThread (harness s) with
      | Some _ => mainPc s' = StopJoining /\ mMonitorEnabled (harness s') = false
      | None => mainPc s' = RunTestReturned /\ harness s' = harness s
      end
  | ActJoin =>
      mainPc s = StopJoining /\ mainPc s' = RunTestReturned /\
      monitor s = Some ThreadFinished /\
      monitor s' = monitor s /\
      mMonitorThread (harness s') = None /\
      mMonitorEnabled (harness s') = mMonitorEnabled (harness s)
  | _ =>
      mainPc s' = mainPc s /\
      monitor s' = monitor s /\
      mMonitorThread (harness s') = mMonitorThread (harness s) /\
      mMonitorEnabled (harness s') = mMonitorEnabled (harness s)
  end.
Proof.
  unfold step. intros Hmain Hstep.
  destruct a; try contradiction.
  - destruct (mainPc s); try discriminate. injection Hstep as <-.
    destruct ok; repeat split.
  - destruct (mainPc s); try discriminate. injection Hstep as <-. repeat split.
  - destruct (mainPc s); try discriminate. injection Hstep as <-.
    destruct (onBeforeNoteOn_keeps_monitor (beforeNote i (harness s))) as [Ht He].
    cbn [harness mainPc printed monitor]. rewrite Ht, He. repeat split.
  - destruct (mainPc s); try discriminate.
    destruct (onEndMeasurement (harness s)) as [h' | ] eqn:Hend; [ | discriminate ].
    destruct (onEndMeasurement_keeps_monitor _ _ Hend) as [Ht He].
    injection Hstep as <-. cbn [harness mainPc printed monitor]. rewrite Ht, He.
    repeat split.
  - destruct (mainPc s); try discriminate.
    destruct (mMonitorThread (harness s)) eqn:Hthread; injection Hstep as <-;
      cbn; rewrite ?Hthread; repeat split.
  - destruct (mainPc s); try discriminate.
    destruct (monitor s) as [ [ | | | ] | ] eqn:Hmon; try discriminate.
    injection Hstep as <-. cbn. rewrite ?Hmon. repeat split.
  - assert (Hs' : s' = mkSystem
                         (set_mAudioSink
                            (fst (setBufferSizeInFrames (mAudioSink (harness s)) numFrames))
                            (harness s)) (monitor s) (mainPc s) (printed s))
      by (destruct (mainPc s); congruence).
    subst s'. repeat split.
Qed.

Lemma step_monitor (s : System) : step ActMonitor s = monitorStep s.
Proof. unfold step. destruct (mainPc s); reflexivity. Qed.

Ltac main_effect Hstep E :=
  match type of Hstep with
  | step ?a ?s = Some ?s' =>
      assert (E := mainAction_effect a s s' ltac:(discriminate) Hstep)
  end;
  cbn beta iota in E.

Ltac monitor_effect Hstep E :=
  rewrite step_monitor in Hstep;
  pose proof (monitorStep_effect _ _ Hstep) as E.

Lemma step_prints_only_at_poll (a : Action) (s s' : System) :
  step a s = Some s' -> isPoll a s = false -> printed s' = printed s.
Proof.
  intros Hstep Hpoll. destruct a; try (main_effect Hstep E; exact (proj1 E)).
  monitor_effect Hstep E. destruct E as (_ & _ & Hmove).
  unfold isPoll in Hpoll.
  destruct (monitor s) as [ [ | previous | previous | ] | ];
    try discriminate; try (destruct Hmove; fail); exact (proj2 Hmove).
Qed.

Lemma step_keeps_noThreadOutsideRun (a : Action) (s s' : System) :
  step a s = Some s' -> noThreadOutsideRun s -> noThreadOutsideRun s'.
Proof.
  unfold noThreadOutsideRun. intros Hstep Hinv.
  destruct a.
  - main_effect Hstep E. destruct E as (_ & Hpc & Hpc' & _ & Ht & Hm).
    rewrite Hpc in Hinv. rewrite Hpc', Ht, Hm.
    destruct ok; [ discriminate | intros _; exact Hinv ].
  - main_effect Hstep E. destruct E as (_ & Hpc' & Hm & Ht & _).
    rewrite Hpc', Hm, Ht. exact Hinv.
  - main_effect Hstep E. destruct E as (_ & Hpc' & Hm & Ht & _).
    rewrite Hpc', Hm, Ht. exact Hinv.
  - main_effect Hstep E. destruct E as (_ & Hpc' & Hm & Ht & _).
    rewrite Hpc', Hm, Ht. exact Hinv.
  - main_effect Hstep E. destruct E as (_ & Hpc & Hm & _ & Hcase).
    rewrite Hpc in Hinv. rewrite Hm.
    destruct (mMonitorThread (harness s)); destruct Hcase as [Hpc' _]; rewrite Hpc';
      [ exact I | left; apply Hinv; reflexivity ].
  - main_effect Hstep E. destruct E as (_ & _ & Hpc' & Hfin & Hm & _).
    rewrite Hpc', Hm. right. exact Hfin.
  - main_effect Hstep E. destruct E as (_ & Hpc' & Hm & Ht & _).
    rewrite Hpc', Hm, Ht. exact Hinv.
  - monitor_effect Hstep E. destruct E as (Hpc' & Hh & Hmove).
    rewrite Hpc', Hh.
    destruct (mainPc s).
    + rewrite Hinv in Hmove. destruct Hmove.
    + intros Hnull. rewrite (Hinv Hnull) in Hmove. destruct Hmove.
    + exact I.
    + destruct Hinv as [Hm | Hm]; rewrite Hm in Hmove; destruct Hmove.
Qed.

Lemma exec_keeps_noThreadOutsideRun (schedule : list Action) :
  forall s s', exec schedule s = Some s' -> noThreadOutsideRun s -> noThreadOutsideRun s'.
Proof.
  induction schedule as [ | a rest IH]; intros s s' Hexec Hinv; cbn in Hexec.
  - injection Hexec as <-. exact Hinv.
  - destruct (step a s) as [s1 | ] eqn:Hstep; [ | discriminate ].
    apply (IH s1 s' Hexec). apply (step_keeps_noThreadOutsideRun a s s1 Hstep Hinv).
Qed.

(** After [runTest] has returned with the thread finished, or never
    started, only other callers of the sink can act, and nothing is
    printed. *)
Lemma step_after_return (a : Action) (s s' : System) :
  mainPc s = RunTestReturned ->
  monitor s = None \/ monitor s = Some ThreadFinished ->
  step a s = Some s' ->
  mainPc s' = RunTestReturned /\
  (monitor s' = None \/ monitor s' = Some ThreadFinished) /\
  printed s' = printed s.
Proof.
  intros Hpc Hdone Hstep.
  destruct a.
  - main_effect Hstep E. destruct E as (_ & Hentry & _). congruence.
  - unfold step in Hstep. rewrite Hpc in Hstep. discriminate.
  - unfold step in Hstep. rewrite Hpc in Hstep. discriminate.
  - unfold step in Hstep. rewrite Hpc in Hstep. discriminate.
  - main_effect Hstep E. destruct E as (_ & Hbody & _). congruence.
  - main_effect Hstep E. destruct E as (_ & Hjoin & _). congruence.
  - main_effect Hstep E. destruct E as (Hp & Hpc' & Hm & _).
    rewrite Hpc', Hm, Hp. auto.
  - monitor_effect Hstep E. destruct E as (_ & _ & Hmove).
    destruct Hdone as [Hm | Hm]; rewrite Hm in Hmove; destruct Hmove.
Qed.

Lemma exec_after_return (schedule : list Action) :
  forall s s',
  mainPc s = RunTestReturned ->
  monitor s = None \/ monitor s = Some ThreadFinished ->
  exec schedule s = Some s' ->
  printed s' = printed s.
Proof.
  induction schedule as [ | a rest IH]; intros s s' Hpc Hdone Hexec; cbn in Hexec.
  - injection Hexec as <-. reflexivity.
  - destruct (step a s) as [s1 | ] eqn:Hstep; [ | discriminate ].
    destruct (step_after_return a s s1 Hpc Hdone Hstep) as (Hpc1 & Hdone1 & Hpr1).
    rewrite <- Hpr1. apply (IH s1 s' Hpc1 Hdone1 Hexec).
Qed.

Lemma step_keeps_finishedAfterStop (a : Action) (s s' : System) :
  step a s = Some s' ->
  noThreadOutsideRun s -> finishedAfterStop s -> finishedAfterStop s'.
Proof.
  unfold finishedAfterStop. intros Hstep Hrun Hinv Hfin.
  destruct a.
  - main_effect Hstep E. destruct E as (_ & Hpc & _ & _ & _ & Hm).
    unfold noThreadOutsideRun in Hrun. rewrite Hpc in Hrun.
    rewrite Hm, Hrun in Hfin. destruct ok; discriminate.
  - main_effect Hstep E. destruct E as (_ & _ & Hm & _ & He).
    rewrite He. apply Hinv. congruence.
  - main_effect Hstep E. destruct E as (_ & _ & Hm & _ & He).
    rewrite He. apply Hinv. congruence.
  - main_effect Hstep E. destruct E as (_ & _ & Hm & _ & He).
    rewrite He. apply Hinv. congruence.
  - main_effect Hstep E. destruct E as (_ & _ & Hm & _ & Hcase).
    destruct (mMonitorThread (harness s)).
    + exact (proj2 Hcase).
    + destruct Hcase as [_ Hh]. rewrite Hh. apply Hinv. congruence.
  - main_effect Hstep E. destruct E as (_ & _ & _ & _ & Hm & _ & He).
    rewrite He. apply Hinv. congruence.
  - main_effect Hstep E. destruct E as (_ & _ & Hm & _ & He).
    rewrite He. apply Hinv. congruence.
  - monitor_effect Hstep E. destruct E as (_ & Hh & Hmove). rewrite Hh.
    destruct (monitor s) as [ [ | previous | previous | ] | ];
      try (destruct Hmove; fail).
    + destruct Hmove as [Ht _]. congruence.
    + destruct Hmove as [Ht _].
      destruct (mMonitorEnabled (harness s)); [ congruence | reflexivity ].
    + destruct Hmove as [Ht _]. congruence.
Qed.

Lemma exec_keeps_finishedAfterStop (schedule : list Action) :
  forall s s',
  exec schedule s = Some s' ->
  noThreadOutsideRun s -> finishedAfterStop s -> finishedAfterStop s'.
Proof.
  induction schedule as [ | a rest IH]; intros s s' Hexec Hrun Hinv; cbn in Hexec.
  - injection Hexec as <-. exact Hinv.
  - destruct (step a s) as [s1 | ] eqn:Hstep; [ | discriminate ].
    apply (IH s1 s' Hexec).
    + apply (step_keeps_noThreadOutsideRun a s s1 Hstep Hrun).
    + apply (step_keeps_finishedAfterStop a s s1 Hstep Hrun Hinv).
Qed.

(** C9.  In every state [s] that [runTest] can reach.  A poll of the monitor
    that reads the size it saw last prints nothing; one that reads another
    size prints one notification for it, the burst size being positive so
    that the message can be computed; either way the size read becomes the
    size seen last.  No other step prints.  The monitor run on its own
    prints exactly the sizes that differ from the size read just before.
    [stopMonitorCallback] returns from [join] only when the thread has
    finished, and the thread finishes only after [mMonitorEnabled] has been
    set to false; so once [runTest] has returned no thread is left that
    could print, and nothing is printed, whatever happens to the sink
    afterwards. *)
Theorem monitor_notifies_changes_until_stop
    (h0 : Harness) (before after : list Action) (s s' : System) :
  exec before (initialSystem h0) = Some s ->
  exec after s = Some s' ->
  (forall previous,
     monitor s = Some (ThreadSleeping previous) ->
     (bufferSize (harness s) = previous ->
      exists t,
        step ActMonitor s = Some t /\
        monitor t = Some (ThreadLoopTest (bufferSize (harness s))) /\
        printed t = printed s) /\
     (bufferSize (harness s) <> previous ->
      0 < mFramesPerBurst (harness s) ->
      exists t n,
        step ActMonitor s = Some t /\
        monitor t = Some (ThreadLoopTest (bufferSize (harness s))) /\
        printed t = printed s ++ [n] /\
        noteBufferSize n = bufferSize (harness s))) /\
  (forall a t, step a s = Some t -> isPoll a s = false -> printed t = printed s) /\
  (forall reads,
     Forall (fun r => 0 < mFramesPerBurst (snd r)) reads ->
     exists out,
       monitorCallback (harness s) reads = Some out /\
       map noteBufferSize out =
       sizeChanges (bufferSize (harness s)) (polledSizes reads)) /\
  (mainPc s = RunTestReturned ->
   (monitor s = None \/ monitor s = Some ThreadFinished) /\
   printed s' = printed s) /\
  (forall t, step ActJoin s = Some t ->
     monitor s = Some ThreadFinished /\ mainPc t = RunTestReturned) /\
  (monitor s = Some ThreadFinished -> mMonitorEnabled (harness s) = false).
Proof.
  intros Hbefore Hafter.
  split; [ | split; [ | split; [ | split; [ | split ] ] ] ].
  - intros previous Hthread. split.
    + intros Heq. rewrite step_monitor. unfold monitorStep.
      rewrite Hthread, Heq, monitorPoll_same.
      eexists. split; [ reflexivity | ]. cbn. rewrite app_nil_r. split; reflexivity.
    + intros Hne Hpos. rewrite step_monitor. unfold monitorStep.
      rewrite Hthread, (monitorPoll_changed _ _ _ Hne), (div32_positive _ _ Hpos).
      eexists _, _. split; [ reflexivity | ]. cbn. repeat split.
  - intros a t. apply step_prints_only_at_poll.
  - intros reads Hpos. unfold monitorCallback.
    destruct (monitorLoop_runs reads (bufferSize (harness s)) Hpos) as [out Hout].
    exists out. split; [ exact Hout | ].
    apply (monitorLoop_prints_changes reads _ _ Hout).
  - intros Hpc.
    assert (Hinv : noThreadOutsideRun s).
    { apply (exec_keeps_noThreadOutsideRun before _ _ Hbefore). reflexivity. }
    unfold noThreadOutsideRun in Hinv. rewrite Hpc in Hinv.
    split; [ exact Hinv | ].
    apply (exec_after_return after s s' Hpc Hinv Hafter).
  - intros t Hjoin. main_effect Hjoin E.
    destruct E as (_ & _ & Hpc' & Hfin & _). split; assumption.
  - apply (exec_keeps_finishedAfterStop before _ _ Hbefore); [ reflexivity | ].
    intros Hfin. discriminate.
Qed.

(* ================================================================= *)
(** * The properties on concrete runs *)

Lemma firstNotes_countsFrom_12 : countsFrom (-1) (firstNotes 12).
Proof. cbn. repeat split; (left; reflexivity) || (right; reflexivity). Defined.

Lemma isoC_rand_nonnegative (s : Z) : 0 <= snd (rand s).
Proof.
  cbn. pose proof (Z.mod_pos_bound (isoC_next s / 65536) 32768). lia.
Defined.

(** At 48000 Hz a buffer of k bursts of 192 frames is reported as exactly
    4 k milliseconds, for k from 1 to 64. *)
Lemma latencyMsecOf_bursts_of_192 :
  Forall (fun k => latencyMsecOf (192 * k) 48000 = double_of_int32 (4 * k))
         (map Z.of_nat (seq 1 64)).
Proof.
  apply Forall_forall. intros k Hk. cbn in Hk.
  repeat (destruct Hk as [<- | Hk]; [ vm_compute; reflexivity | ]).
  destruct Hk.
Qed.

(** One underrun at 48000 Hz with bursts of 192 frames: the buffer grows to
    384 frames, reported as 8.0 ms, and the glitch is dated at 1920 frames. *)
Lemma one_underrun_scenario :
  exists final,
    onEndMeasurement
      (fst (probeRun (onBeginMeasurement (exampleHarness 192 1000))
              [mkNoteInput 0 0 960; mkNoteInput 5000 1 960; mkNoteInput 9000 1 960]))
    = Some final /\
    resultCode (mResult final) = Some SYNTHMARK_RESULT_SUCCESS /\
    resultMeasurement (mResult final) = Some (double_of_int32 384) /\
    map audio_latency_msec (resultMessages (mResult final)) = [double_of_int32 8] /\
    map audio_latency_bursts (resultMessages (mResult final)) = [2] /\
    mGlitchTime final = float_div (float_of_int32 1920) (float_of_int32 48000).
Proof. eexists. split; [ vm_compute; reflexivity | ]. vm_compute. repeat split. Qed.

(** Two underruns seen on a sink of 1000 frames: the buffer ends at three
    bursts. *)
Lemma buffer_grows_one_burst_per_underrun_witness :
  (1 + 2) * 192 <= 1000 /\
  bufferSize (fst (probeRun (onBeginMeasurement (exampleHarness 192 1000)) exampleNotes))
  = 192 + 2 * 192.
Proof.
  split; [ discriminate | ].
  refine (proj1 (proj2 (proj2
            (buffer_grows_one_burst_per_underrun (exampleHarness 192 1000) exampleNotes
               _ _ _)))).
  - reflexivity.
  - split; discriminate.
  - vm_compute. discriminate.
Defined.

(** The sink holds 960 of at most 1000 frames when an underrun is seen. *)
Lemma onBeforeNoteOn_unrecoverable_witness :
  snd (onBeforeNoteOn
         (beforeNote (mkNoteInput 5000 1 960)
            (set_mAudioSink (mkSink 960 1000 0) (exampleHarness 192 1000))))
  = SYNTHMARK_RESULT_UNRECOVERABLE_ERROR.
Proof.
  rewrite (onBeforeNoteOn_unrecoverable
             (beforeNote (mkNoteInput 5000 1 960)
                (set_mAudioSink (mkSink 960 1000 0) (exampleHarness 192 1000)))).
  - reflexivity.
  - reflexivity.
  - reflexivity.
  - reflexivity.
Defined.

(** On a sink of 500 frames the second growth is clamped and ends the run. *)
Lemma buffer_size_monotone_and_bounded_witness :
  bufferSizes (onBeginMeasurement (exampleHarness 192 500)) exampleNotes
    = [192; 192; 384; 384; 500] /\
  nonDecreasing (bufferSizes (onBeginMeasurement (exampleHarness 192 500)) exampleNotes) /\
  Forall (fun size => size <= 500)
    (bufferSizes (onBeginMeasurement (exampleHarness 192 500)) exampleNotes).
Proof.
  split; [ reflexivity | ].
  refine (let P := buffer_size_monotone_and_bounded (exampleHarness 192 500) exampleNotes
                     _ _ _ in conj (proj1 P) (proj1 (proj2 P))).
  - discriminate.
  - split; discriminate.
  - discriminate.
Defined.

(** 48000 Hz, bursts of 192 frames, no underrun: 192 frames, 4.0 ms. *)
Lemma onEndMeasurement_reports_latency_witness :
  exists ended report,
    onEndMeasurement
      (fst (probeRun (onBeginMeasurement (exampleHarness 192 1000)) quietNotes))
    = Some ended /\
    resultCode (mResult ended) = Some SYNTHMARK_RESULT_SUCCESS /\
    resultMeasurement (mResult ended) = Some (double_of_int32 192) /\
    resultMessages (mResult ended) = [report] /\
    audio_latency_frames report = 192 /\
    audio_latency_msec report = S754_finite false (2 ^ 52) (-50).
Proof.
  destruct (proj2 (onEndMeasurement_reports_latency (exampleHarness 192 1000) quietNotes)
              eq_refl eq_refl ltac:(discriminate) ltac:(repeat constructor))
    as (_ & ended & report & Hend & Hcode & Hmeasure & Hmessages & Hframes & Hmsec).
  exists ended, report.
  split; [ exact Hend | split; [ exact Hcode | split; [ exact Hmeasure | ] ] ].
  split; [ exact Hmessages | split; [ exact Hframes | exact Hmsec ] ].
Defined.

(** Twelve notes in Switch mode between 10 and 20 voices. *)
Lemma switch_mode_follows_pattern_witness :
  exists g',
    voicesForNotes (exampleVoices VOICES_SWITCH 10 20) (mkGlobals 17 (srand 7))
      (firstNotes 12)
    = Some (g', [10; 10; 10; 10; 10; 20; 20; 20; 20; 20; 10; 10]).
Proof.
  exact (switch_mode_follows_pattern (exampleVoices VOICES_SWITCH 10 20)
           (mkGlobals 17 (srand 7)) (firstNotes 12)
           eq_refl eq_refl firstNotes_countsFrom_12).
Defined.



(** Random mode with a high count of 8, two below the low count 10: every
    remainder modulo -1 is 0. *)
Lemma constant_load_without_high_count_witness :
  exists g',
    voicesForNotes (exampleVoices VOICES_RANDOM 10 8) (processStart (srand 0))
      (firstNotes 12)
    = Some (g', [10; 10; 10; 10; 10; 10; 10; 10; 10; 10; 10; 10]).
Proof.
  refine (proj1 (constant_load_without_high_count (exampleVoices VOICES_RANDOM 10 8)
                   (processStart (srand 0)) (firstNotes 12) _)
            _ firstNotes_countsFrom_12).
  - split; discriminate.
  - right. right. right. split; reflexivity.
Defined.

(** C7 as stated fails: with a high count of 3, which is not above the low
    count 10, Switch mode returns 3 for the notes 5 to 9. *)
Lemma high_below_low_still_modulates :
  let h := exampleVoices VOICES_SWITCH 10 3 in
  mNumVoicesHigh h <= mNumVoices h /\
  getCurrentNumVoices (set_mNoteCounter 5 h) (processStart (srand 0))
    = Some (mkGlobals 3 (srand 0), 3) /\
  voicesForNotes h (processStart (srand 0)) (firstNotes 7)
    = Some (mkGlobals 3 (srand 0), [10; 10; 10; 10; 10; 3; 3]) /\
  3 <> mNumVoices h.
Proof. repeat split; discriminate. Qed.



Ltac run_schedule schedule start Hexec :=
  let r := eval vm_compute in (exec schedule start) in
  lazymatch r with
  | Some ?s =>
      exists s;
      assert (Hexec : exec schedule start = Some s) by (vm_compute; reflexivity)
  end.

(** [runTest] with one growth of the buffer: two notifications; [join]
    returns for the finished thread, and nothing is printed for the two
    changes of the size after that. *)
Lemma monitor_notifies_changes_until_stop_witness :
  exists s s',
    exec exampleSchedule (initialSystem (exampleHarness 192 1000)) = Some s /\
    exec exampleAftermath s = Some s' /\
    mainPc s = RunTestReturned /\
    map noteBufferSize (printed s) = [192; 384] /\
    bufferSize (harness s') = 700 /\
    printed s' = printed s.
Proof.
  run_schedule exampleSchedule (initialSystem (exampleHarness 192 1000)) Hbefore.
  match type of Hbefore with
  | _ = Some ?s => run_schedule exampleAftermath s Hafter
  end.
  split; [ exact Hbefore | split; [ exact Hafter | ] ].
  do 3 (split; [ reflexivity | ]).
  exact (proj2 (proj1 (proj2 (proj2 (proj2
           (monitor_notifies_changes_until_stop (exampleHarness 192 1000)
              _ _ _ _ Hbefore Hafter)))) eq_refl)).
Defined.

(** A first note, before the timer has run. *)
Lemma onBeforeNoteOn_no_underrun_unchanged_witness :
  onBeforeNoteOn (beforeNote (mkNoteInput 0 3 960) (exampleHarness 192 1000))
  = (beforeNote (mkNoteInput 0 3 960) (exampleHarness 192 1000), SYNTHMARK_RESULT_SUCCESS).
Proof.
  apply (onBeforeNoteOn_no_underrun_unchanged
           (beforeNote (mkNoteInput 0 3 960) (exampleHarness 192 1000))).
  left. discriminate.
Defined.

(* ================================================================= *)
(** * Further properties of the probe *)

Section ProbeCallMore.

Context {S : Type} `{AudioSinkBase S}.

(** A call that saw an underrun delta moves the baseline to the count of
    the sink, whatever the sink answers. *)
Lemma onBeforeNoteOn_baseline_moves (h : LatencyMarkHarness S) :
  underrunObserved h = true ->
  mPreviousUnderrunCount (fst (onBeforeNoteOn h)) = getUnderrunCount (mAudioSink h).
Proof.
  intros Hu. rewrite (onBeforeNoteOn_underrun h Hu).
  match goal with |- context [if ?c then _ else _] => destruct c end; reflexivity.
Qed.

(** X1.  On a sink whose underrun count does not depend on the buffer size,
    a second call of [onBeforeNoteOn] right after a first one changes nothing
    and returns success, whether the first call grew the buffer, failed or
    did nothing: an underrun count is acted on once, and the error of a call
    is not kept in the harness. *)
Theorem onBeforeNoteOn_acts_once (h : LatencyMarkHarness S) :
  (forall (sink : S) (n : Z),
     getUnderrunCount (fst (setBufferSizeInFrames sink n)) = getUnderrunCount sink) ->
  onBeforeNoteOn (fst (onBeforeNoteOn h)) =
  (fst (onBeforeNoteOn h), SYNTHMARK_RESULT_SUCCESS).
Proof.
  intros Hcount. apply onBeforeNoteOn_quiet.
  destruct (underrunObserved h) eqn:Hu.
  - apply underrunObserved_false. right.
    rewrite (onBeforeNoteOn_baseline_moves h Hu).
    rewrite (onBeforeNoteOn_underrun h Hu).
    match goal with |- context [if ?c then _ else _] => destruct c end;
      cbn [fst mAudioSink set_mAudioSink restart set_mNoteCounter set_mFrameCounter
             set_mGlitchTime];
      rewrite Hcount; apply Z.le_refl.
  - rewrite (onBeforeNoteOn_quiet h Hu). exact Hu.
Qed.

End ProbeCallMore.

Lemma probeRun_baseline (inputs : list NoteInput) :
  forall h : Harness,
  mPreviousUnderrunCount h + Z.of_nat (underrunEvents h inputs)
    <= mPreviousUnderrunCount (fst (probeRun h inputs)).
Proof.
  induction inputs as [ | i rest IH]; intros h.
  - cbn. lia.
  - rewrite underrunEvents_cons, probeRun_cons.
    set (pre := beforeNote i h).
    assert (Hpre : mPreviousUnderrunCount pre = mPreviousUnderrunCount h) by reflexivity.
    destruct (underrunObserved pre) eqn:Hu.
    + pose proof (onBeforeNoteOn_baseline_moves pre Hu) as Hmove.
      apply underrunObserved_true in Hu. destruct Hu as [_ Hlt].
      destruct (snd (onBeforeNoteOn pre)).
      * specialize (IH (afterNote (fst (onBeforeNoteOn pre)))).
        change (mPreviousUnderrunCount (afterNote (fst (onBeforeNoteOn pre))))
          with (mPreviousUnderrunCount (fst (onBeforeNoteOn pre))) in IH.
        rewrite Nat2Z.inj_add. change (Z.of_nat 1) with 1.
        unfold Harness in *. lia.
      * change (Z.of_nat (1 + 0)) with 1. unfold Harness in *. lia.
    + rewrite (onBeforeNoteOn_quiet pre Hu). cbn [fst snd Nat.add].
      specialize (IH (afterNote pre)).
      change (mPreviousUnderrunCount (afterNote pre)) with (mPreviousUnderrunCount h) in IH.
      exact IH.
Qed.

(** X2.  In a search, the number of calls that saw an underrun delta, the
    one that failed included, is at most the underrun count the harness has
    recorded at the end: the buffer is not asked to grow more often than the
    sink has counted underruns. *)
Theorem growths_bounded_by_underruns (h : Harness) (inputs : list NoteInput) :
  Z.of_nat (underrunEvents (onBeginMeasurement h) inputs)
    <= mPreviousUnderrunCount (fst (probeRun (onBeginMeasurement h) inputs)).
Proof.
  pose proof (probeRun_baseline inputs (onBeginMeasurement h)) as Hb.
  change (mPreviousUnderrunCount (onBeginMeasurement h)) with 0 in Hb. lia.
Qed.

(** How a run ends, by the room the sink has for the underrun deltas seen. *)
Lemma probeRun_outcome (inputs : list NoteInput) :
  forall h : Harness,
  0 < mFramesPerBurst h ->
  int32 (maxBufferSize h) ->
  maxBufferSize h + mFramesPerBurst h <= INT32_MAX ->
  INT32_MIN <= bufferSize h <= maxBufferSize h ->
  let N := Z.of_nat (underrunEvents h inputs) in
  match snd (probeRun h inputs) with
  | SYNTHMARK_RESULT_SUCCESS =>
      bufferSize (fst (probeRun h inputs)) = bufferSize h + N * mFramesPerBurst h /\
      bufferSize h + N * mFramesPerBurst h <= maxBufferSize h
  | SYNTHMARK_RESULT_UNRECOVERABLE_ERROR =>
      bufferSize (fst (probeRun h inputs)) = maxBufferSize h /\
      maxBufferSize h < bufferSize h + N * mFramesPerBurst h /\
      bufferSize h + (N - 1) * mFramesPerBurst h <= maxBufferSize h
  end.
Proof.
  induction inputs as [ | i rest IH]; intros h Hfpb Hmax Hsum Hsize N; subst N.
  - cbn. change (bufferSizeInFrames (mAudioSink h)) with (bufferSize h). lia.
  - rewrite underrunEvents_cons, probeRun_cons.
    set (pre := beforeNote i h) in *.
    assert (Hpre : bufferSize pre = bufferSize h /\
                   maxBufferSize pre = maxBufferSize h /\
                   mFramesPerBurst pre = mFramesPerBurst h) by (repeat split).
    destruct Hpre as (Hps & Hpm & Hpf).
    destruct (underrunObserved pre) eqn:Hu.
    + assert (H32 : int32 (bufferSize pre + mFramesPerBurst pre))
        by (rewrite Hps, Hpf; unfold int32 in *; lia).
      destruct (Z_le_gt_dec (bufferSize pre + mFramesPerBurst pre) (maxBufferSize pre))
        as [Hfit | Hbig].
      * destruct (onBeforeNoteOn_grows pre Hu H32 Hfit)
          as (post & Hcall & Hs & Hm & Hf & _).
        rewrite Hcall. cbn [fst snd].
        specialize (IH (afterNote post)).
        change (bufferSize (afterNote post)) with (bufferSize post) in IH.
        change (maxBufferSize (afterNote post)) with (maxBufferSize post) in IH.
        change (mFramesPerBurst (afterNote post)) with (mFramesPerBurst post) in IH.
        rewrite Hs, Hm, Hf, Hps, Hpm, Hpf in IH. rewrite Hps, Hpm, Hpf in Hfit.
        assert (IH' := IH Hfpb Hmax Hsum ltac:(lia)). clear IH. cbv zeta in IH'.
        rewrite Nat2Z.inj_add. change (Z.of_nat 1) with 1.
        destruct (snd (probeRun (afterNote post) rest)); lia.
      * destruct (onBeforeNoteOn_fails pre Hu H32) as (post & Hcall & Hs & Hm & Hf);
          [ lia | ].
        rewrite Hcall. cbn [fst snd Nat.add Z.of_nat].
        rewrite Hs, Hpm. rewrite Hps, Hpm, Hpf in Hbig.
        change (Z.of_nat 1) with 1. lia.
    + rewrite (onBeforeNoteOn_quiet pre Hu). cbn [fst snd Nat.add].
      apply (IH (afterNote pre)); assumption.
Qed.

(** X3.  A search on a sink that holds at least one burst ends with the
    unrecoverable error exactly when the underrun deltas it saw, the last one
    included, ask for more bursts than the sink holds; the buffer is then
    left at the maximum of the sink.  In every search the number of deltas
    seen times the burst size is at most the maximum of the sink. *)
Theorem search_fails_exactly_when_sink_too_small (h : Harness) (inputs : list NoteInput) :
  let start := onBeginMeasurement h in
  let N := Z.of_nat (underrunEvents start inputs) in
  0 < mFramesPerBurst h <= maxBufferSize h ->
  int32 (maxBufferSize h) ->
  maxBufferSize h + mFramesPerBurst h <= INT32_MAX ->
  (snd (probeRun start inputs) = SYNTHMARK_RESULT_UNRECOVERABLE_ERROR <->
   maxBufferSize h < (1 + N) * mFramesPerBurst h) /\
  (snd (probeRun start inputs) = SYNTHMARK_RESULT_UNRECOVERABLE_ERROR ->
   bufferSize (fst (probeRun start inputs)) = maxBufferSize h) /\
  N * mFramesPerBurst h <= maxBufferSize h.
Proof.
  intros start N Hfpb Hmax Hsum.
  destruct (onBeginMeasurement_virtual h) as (Hs & Hm & Hf & _).
  fold start in Hs, Hm, Hf.
  rewrite Z.min_l in Hs by lia.
  pose proof (probeRun_outcome inputs start) as Hout.
  rewrite Hs, Hm, Hf in Hout. cbv zeta in Hout. fold N in Hout.
  specialize (Hout ltac:(lia) Hmax Hsum
                ltac:(unfold int32, INT32_MIN, INT32_MAX in *; lia)).
  destruct (snd (probeRun start inputs)).
  - repeat split; try discriminate; lia.
  - repeat split; try reflexivity; lia.
Qed.

(** X4.  After a search that ended with success, [onEndMeasurement] returns
    and reports one burst more than the number of underrun deltas the search
    saw, and a size in frames that is this number of bursts times the burst
    size. *)
Theorem successful_search_reports_bursts (h : Harness) (inputs : list NoteInput) :
  let start := onBeginMeasurement h in
  let N := Z.of_nat (underrunEvents start inputs) in
  let final := fst (probeRun start inputs) in
  0 < mFramesPerBurst h <= maxBufferSize h ->
  int32 (maxBufferSize h) ->
  maxBufferSize h + mFramesPerBurst h <= INT32_MAX ->
  snd (probeRun start inputs) = SYNTHMARK_RESULT_SUCCESS ->
  option_map mResult (onEndMeasurement final) =
  Some (mkSynthMarkResult
          (resultMessages (mResult h) ++
           [mkLatencyReport (mFramesPerBurst h) (1 + N) ((1 + N) * mFramesPerBurst h)
              (latencyMsecOf ((1 + N) * mFramesPerBurst h) (mSampleRate h))])
          (Some SYNTHMARK_RESULT_SUCCESS)
          (Some (double_of_int32 ((1 + N) * mFramesPerBurst h)))).
Proof.
  intros start N final Hfpb Hmax Hsum Hok.
  destruct (onBeginMeasurement_virtual h) as (Hs & Hm & Hf & _).
  fold start in Hs, Hm, Hf.
  rewrite Z.min_l in Hs by lia.
  pose proof (probeRun_outcome inputs start) as Hout.
  rewrite Hs, Hm, Hf in Hout. cbv zeta in Hout. fold N in Hout.
  specialize (Hout ltac:(lia) Hmax Hsum
                ltac:(unfold int32, INT32_MIN, INT32_MAX in *; lia)).
  rewrite Hok in Hout. destruct Hout as [Hsize _]. fold final in Hsize.
  destruct (probeRun_keeps_configuration inputs start) as (Hcf & Hcs & Hcr).
  fold final in Hcf, Hcs, Hcr.
  rewrite (onEndMeasurement_positive final) by (rewrite Hcf; apply Hfpb).
  cbv zeta. cbn [option_map mResult set_mResult].
  change (getBufferSizeInFrames (mAudioSink final)) with (bufferSize final).
  rewrite Hcf, Hcs, Hcr, Hsize.
  change (mFramesPerBurst start) with (mFramesPerBurst h).
  change (mSampleRate start) with (mSampleRate h).
  change (mResult start) with (mResult h).
  replace (mFramesPerBurst h + N * mFramesPerBurst h)
    with ((1 + N) * mFramesPerBurst h) by lia.
  rewrite Z.quot_mul by lia. reflexivity.
Qed.

(* ================================================================= *)
(** * Further properties of the load generator *)

Lemma succ_mod (j P : Z) :
  0 <= j -> 0 < P ->
  (j + 1) mod P = if j mod P + 1 =? P then 0 else j mod P + 1.
Proof.
  intros Hj HP.
  pose proof (Z.mod_pos_bound j P HP) as Hm.
  pose proof (Z.div_mod j P ltac:(lia)) as Hdiv.
  destruct (Z.eqb_spec (j mod P + 1) P) as [Heq | Hne].
  - symmetry. apply (Z.mod_unique (j + 1) P (j / P + 1) 0); lia.
  - symmetry. apply (Z.mod_unique (j + 1) P (j / P) (j mod P + 1)); lia.
Qed.

Lemma wrap32_zero_iff (z : Z) :
  - 2 ^ 32 < z <= 2 ^ 32 ->
  (wrap32 z = 0 <-> z = 0 \/ z = 2 ^ 32).
Proof.
  unfold wrap32. change (2 ^ 31) with 2147483648. change (2 ^ 32) with 4294967296.
  intros Hz.
  pose proof (Z.div_mod (z + 2147483648) 4294967296 ltac:(lia)) as Hdiv.
  pose proof (Z.mod_pos_bound (z + 2147483648) 4294967296 ltac:(lia)) as Hm.
  split; intros Hw; lia.
Qed.

Section LoadGeneratorMore.

Context {S : Type} `{AudioSinkBase S} {R : Type} `{LibcRand R}.

Implicit Types (h : LatencyMarkHarness S) (g : ProcessGlobals R).

(** *** The range of the counts *)

Lemma update_in_range h g :
  mVoicesMode h <> VOICES_RANDOM ->
  0 < mNumVoicesHigh h ->
  mNumVoices h <= mNumVoicesHigh h ->
  Z.rem (mNoteCounter h) 5 = 0 ->
  exists g' v,
    getCurrentNumVoices h g = Some (g', v) /\
    lastVoices g' = v /\
    mNumVoices h <= v <= mNumVoicesHigh h.
Proof.
  intros Hmode Hhigh Hle Hrem.
  rewrite (getCurrentNumVoices_update h g Hhigh Hrem).
  assert (Hswitch : mNumVoices h <= switchVoices h <= mNumVoicesHigh h).
  { unfold switchVoices, getNumVoices.
    match goal with |- context [if ?c then _ else _] => destruct c end; lia. }
  destruct (mVoicesMode h); try contradiction.
  - eexists _, _. split; [ reflexivity | split; [ reflexivity | exact Hswitch ] ].
  - eexists _, _. split; [ reflexivity | split; [ reflexivity | exact Hswitch ] ].
  - eexists _, _. split; [ reflexivity | split; [ reflexivity | ] ].
    unfold linearLoopVoices, getNumVoices.
    destruct (Z.ltb_spec (mNumVoicesHigh h) (add32 (lastVoices g) (Z.quot NOTES_PER_STEP 2)));
      [ cbn [orb]; lia | ].
    destruct (Z.ltb_spec (add32 (lastVoices g) (Z.quot NOTES_PER_STEP 2)) (mNumVoices h));
      cbn [orb]; lia.
Qed.

Lemma run_in_range (notes : list Z) :
  forall h g prev,
  mVoicesMode h <> VOICES_RANDOM ->
  0 < mNumVoicesHigh h ->
  mNumVoices h <= mNumVoicesHigh h ->
  prev = -1 \/ mNumVoices h <= lastVoices g <= mNumVoicesHigh h ->
  countsFrom prev notes ->
  exists g' vs,
    voicesForNotes h g notes = Some (g', vs) /\
    Forall (fun v => mNumVoices h <= v <= mNumVoicesHigh h) vs.
Proof.
  induction notes as [ | n rest IH]; intros h g prev Hmode Hhigh Hle Hprev Hcount.
  - exists g, []. split; [ reflexivity | constructor ].
  - destruct Hcount as [Hn Hrest]. cbn [voicesForNotes].
    destruct (Z.eq_dec (Z.rem n 5) 0) as [Hrem | Hrem].
    + destruct (update_in_range (set_mNoteCounter n h) g Hmode Hhigh Hle Hrem)
        as (g1 & v & Hcall & Hlast & Hin).
      rewrite Hcall.
      change (mNumVoices (set_mNoteCounter n h)) with (mNumVoices h) in Hin.
      change (mNumVoicesHigh (set_mNoteCounter n h)) with (mNumVoicesHigh h) in Hin.
      destruct (IH h g1 n Hmode Hhigh Hle) as (g' & vs & Hrun & Hall);
        [ right; rewrite Hlast; exact Hin | exact Hrest | ].
      rewrite Hrun. exists g', (v :: vs).
      split; [ reflexivity | constructor; assumption ].
    + rewrite getCurrentNumVoices_between by assumption.
      assert (Hin : mNumVoices h <= lastVoices g <= mNumVoicesHigh h).
      { destruct Hprev as [Hp | Hin]; [ | exact Hin ].
        destruct Hn as [Hn | Hn]; subst; cbn in Hrem; congruence. }
      destruct (IH h g n Hmode Hhigh Hle (or_intror Hin) Hrest)
        as (g' & vs & Hrun & Hall).
      rewrite Hrun. exists g', (lastVoices g :: vs).
      split; [ reflexivity | constructor; assumption ].
Qed.

(** X5.  In the Switch and LinearLoop modes, and with the mode left
    undefined, a run that asks the generator once for each note gets only
    counts between the low and the high voice count, when the high count is
    positive and not below the low count, whatever the static held before. *)
Theorem counts_stay_in_range h g (notes : list Z) :
  mVoicesMode h <> VOICES_RANDOM ->
  0 < mNumVoicesHigh h ->
  mNumVoices h <= mNumVoicesHigh h ->
  countsFrom (-1) notes ->
  exists g' vs,
    voicesForNotes h g notes = Some (g', vs) /\
    Forall (fun v => mNumVoices h <= v <= mNumVoicesHigh h) vs.
Proof.
  intros Hmode Hhigh Hle Hcount.
  apply (run_in_range notes h g (-1)); try assumption. left. reflexivity.
Qed.

(** *** The ramp of the LinearLoop mode *)

Lemma linearLoopVoices_ramp h (m : Z) :
  mNumVoices h <= mNumVoicesHigh h ->
  INT32_MIN <= mNumVoices h ->
  mNumVoicesHigh h + 5 <= INT32_MAX ->
  0 <= m < (mNumVoicesHigh h - mNumVoices h) / 5 + 1 ->
  linearLoopVoices h (mNumVoices h + 5 * m) =
  mNumVoices h +
  5 * (if m + 1 =? (mNumVoicesHigh h - mNumVoices h) / 5 + 1 then 0 else m + 1).
Proof.
  intros Hle Hlow Hhigh Hm.
  pose proof (Z.div_mod (mNumVoicesHigh h - mNumVoices h) 5 ltac:(lia)) as Hdiv.
  pose proof (Z.mod_pos_bound (mNumVoicesHigh h - mNumVoices h) 5 ltac:(lia)) as Hmod.
  assert (H32 : int32 (mNumVoices h + 5 * m + 5)) by (unfold int32; lia).
  destruct (Z.eqb_spec (m + 1) ((mNumVoicesHigh h - mNumVoices h) / 5 + 1)) as [Heq | Hne].
  - rewrite (linearLoopVoices_outside h _ H32) by lia. lia.
  - rewrite (linearLoopVoices_inside h _ H32) by lia. lia.
Qed.

Lemma sawtooth_next_step (low high n : Z) :
  low <= high -> 0 < n -> Z.rem n 5 = 0 ->
  sawtooth low high n =
  low + 5 * (if ((n - 1) / 5) mod ((high - low) / 5 + 1) + 1 =? (high - low) / 5 + 1
             then 0 else ((n - 1) / 5) mod ((high - low) / 5 + 1) + 1).
Proof.
  intros Hle Hn Hrem. unfold sawtooth.
  rewrite Z.rem_mod_nonneg in Hrem by lia.
  assert (Hdiv : n / 5 = (n - 1) / 5 + 1).
  { pose proof (Z.div_mod n 5 ltac:(lia)). pose proof (Z.div_mod (n - 1) 5 ltac:(lia)).
    pose proof (Z.mod_pos_bound (n - 1) 5 ltac:(lia)). lia. }
  assert (HP : 0 < (high - low) / 5 + 1).
  { pose proof (Z.div_pos (high - low) 5 ltac:(lia) ltac:(lia)). lia. }
  assert (Hj : 0 <= (n - 1) / 5) by (apply Z.div_pos; lia).
  rewrite Hdiv, (succ_mod _ _ Hj HP). reflexivity.
Qed.

Lemma sawtooth_same_step (low high n : Z) :
  0 < n -> Z.rem n 5 <> 0 -> sawtooth low high n = sawtooth low high (n - 1).
Proof.
  intros Hn Hrem. unfold sawtooth.
  rewrite Z.rem_mod_nonneg in Hrem by lia.
  assert (Hdiv : n / 5 = (n - 1) / 5).
  { pose proof (Z.div_mod n 5 ltac:(lia)). pose proof (Z.div_mod (n - 1) 5 ltac:(lia)).
    pose proof (Z.mod_pos_bound (n - 1) 5 ltac:(lia)).
    pose proof (Z.mod_pos_bound n 5 ltac:(lia)). lia. }
  rewrite Hdiv. reflexivity.
Qed.

Lemma linear_loop_run (k : nat) :
  forall (a : nat) h g,
  mVoicesMode h = VOICES_LINEAR_LOOP ->
  0 < mNumVoicesHigh h ->
  mNumVoices h <= mNumVoicesHigh h ->
  INT32_MIN <= mNumVoices h ->
  mNumVoicesHigh h + 5 <= INT32_MAX ->
  (a = 0%nat /\ int32 (lastVoices g + 5) /\
   (mNumVoicesHigh h < lastVoices g + 5 \/ lastVoices g + 5 < mNumVoices h)) \/
  ((0 < a)%nat /\
   lastVoices g = sawtooth (mNumVoices h) (mNumVoicesHigh h) (Z.of_nat a - 1)) ->
  exists g',
    voicesForNotes h g (map Z.of_nat (seq a k)) =
    Some (g', map (sawtooth (mNumVoices h) (mNumVoicesHigh h)) (map Z.of_nat (seq a k))).
Proof.
  induction k as [ | k IH]; intros a h g Hmode Hhigh Hle Hlow Hmax Hinv.
  - exists g. reflexivity.
  - cbn [seq map voicesForNotes].
    set (low := mNumVoices h) in *. set (high := mNumVoicesHigh h) in *.
    assert (HP : 0 < (high - low) / 5 + 1).
    { pose proof (Z.div_pos (high - low) 5 ltac:(lia) ltac:(lia)). lia. }
    assert (Hstep : exists g1,
               getCurrentNumVoices (set_mNoteCounter (Z.of_nat a) h) g =
                 Some (g1, sawtooth low high (Z.of_nat a)) /\
               lastVoices g1 = sawtooth low high (Z.of_nat a)).
    { destruct (Z.eq_dec (Z.rem (Z.of_nat a) 5) 0) as [Hrem | Hrem].
      - rewrite (getCurrentNumVoices_update (set_mNoteCounter (Z.of_nat a) h) g Hhigh Hrem).
        cbn [mVoicesMode set_mNoteCounter]. rewrite Hmode.
        change (linearLoopVoices (set_mNoteCounter (Z.of_nat a) h) (lastVoices g))
          with (linearLoopVoices h (lastVoices g)).
        assert (Hv : linearLoopVoices h (lastVoices g) = sawtooth low high (Z.of_nat a)).
        { destruct Hinv as [(Ha & H32 & Hout) | (Ha & Hlast)].
          - subst a. rewrite (linearLoopVoices_outside _ _ H32 Hout).
            unfold sawtooth. cbn [Z.of_nat]. rewrite Z.div_0_l by lia.
            rewrite Z.mod_0_l by lia. cbn. fold low. lia.
          - rewrite Hlast, (sawtooth_next_step low high (Z.of_nat a))
              by (try assumption; lia).
            unfold sawtooth at 1. fold low high.
            apply (linearLoopVoices_ramp h);
              try assumption.
            apply Z.mod_pos_bound. exact HP. }
        rewrite Hv. eexists. split; reflexivity.
      - rewrite getCurrentNumVoices_between by assumption.
        destruct Hinv as [(Ha & _) | (Ha & Hlast)];
          [ subst a; cbn in Hrem; congruence | ].
        assert (Hl : lastVoices g = sawtooth low high (Z.of_nat a)).
        { rewrite Hlast. symmetry. apply sawtooth_same_step; [ lia | exact Hrem ]. }
        exists g. rewrite <- Hl. split; reflexivity. }
    destruct Hstep as (g1 & Hcall & Hlast1). rewrite Hcall.
    destruct (IH (Datatypes.S a) h g1 Hmode Hhigh Hle Hlow Hmax) as [g' Hg'].
    { right. split; [ lia | ]. rewrite Hlast1. f_equal. lia. }
    rewrite Hg'. exists g'. reflexivity.
Qed.

(** X6.  In LinearLoop mode with the high count not below the low count, a
    run of k notes without restart (the note counters 0, 1, ..., k - 1) whose
    first update falls back to the low count (as in a fresh process with a
    low count above 5) returns for the note n the low count plus 5 times the
    number of the step, the steps being counted modulo
    [(high - low) / 5 + 1]: a ramp in steps of 5 every 5 notes that starts
    again at the low count after the last step that fits below the high
    count. *)
Theorem linear_loop_closed_form h g (k : nat) :
  mVoicesMode h = VOICES_LINEAR_LOOP ->
  0 < mNumVoicesHigh h ->
  mNumVoices h <= mNumVoicesHigh h ->
  INT32_MIN <= mNumVoices h ->
  mNumVoicesHigh h + 5 <= INT32_MAX ->
  int32 (lastVoices g + 5) ->
  mNumVoicesHigh h < lastVoices g + 5 \/ lastVoices g + 5 < mNumVoices h ->
  exists g',
    voicesForNotes h g (firstNotes k) =
    Some (g', map (fun n => mNumVoices h +
                            5 * ((n / 5) mod ((mNumVoicesHigh h - mNumVoices h) / 5 + 1)))
                  (firstNotes k)).
Proof.
  intros Hmode Hhigh Hle Hlow Hmax H32 Hout.
  apply (linear_loop_run k 0 h g); try assumption.
  left. auto.
Qed.

End LoadGeneratorMore.

Section LoadGeneratorEdges.

Context {S : Type} `{AudioSinkBase S} {R : Type} `{LibcRand R}.

Implicit Types (h : LatencyMarkHarness S) (g : ProcessGlobals R).

Lemma randomRange_zero_iff h :
  int32 (mNumVoices h) -> int32 (mNumVoicesHigh h) ->
  (randomRange h = 0 <->
   mNumVoicesHigh h = mNumVoices h - 1 \/
   (mNumVoicesHigh h = INT32_MAX /\ mNumVoices h = INT32_MIN)).
Proof.
  unfold int32, INT32_MIN, INT32_MAX. intros Hlow Hhigh.
  assert (Hsame : randomRange h = wrap32 (mNumVoicesHigh h - mNumVoices h + 1)).
  { unfold randomRange, getNumVoices, add32, sub32, wrap32.
    change (2 ^ 31) with 2147483648. change (2 ^ 32) with 4294967296.
    f_equal.
    replace (((mNumVoicesHigh h - mNumVoices h + 2147483648) mod 4294967296
              - 2147483648 + 1 + 2147483648))
      with ((mNumVoicesHigh h - mNumVoices h + 2147483648) mod 4294967296 + 1) by lia.
    rewrite Z.add_mod_idemp_l by lia. f_equal. lia. }
  rewrite Hsame, wrap32_zero_iff by lia.
  change (2 ^ 31) with 2147483648 in *. change (2 ^ 32) with 4294967296. lia.
Qed.

(** X7.  [getCurrentNumVoices] divides by zero in one case only: in Random
    mode, with a positive high count, at an update, when the high count is
    one below the low count (or the two counts are the largest and the
    smallest [int32_t], whose distance plus one wraps to 0).  Everywhere else
    it returns a count. *)
Theorem getCurrentNumVoices_undefined_iff h g :
  int32 (mNumVoices h) -> int32 (mNumVoicesHigh h) ->
  (getCurrentNumVoices h g = None <->
   mVoicesMode h = VOICES_RANDOM /\
   0 < mNumVoicesHigh h /\
   Z.rem (mNoteCounter h) 5 = 0 /\
   (mNumVoicesHigh h = mNumVoices h - 1 \/
    (mNumVoicesHigh h = INT32_MAX /\ mNumVoices h = INT32_MIN))).
Proof.
  intros Hlow Hhigh.
  rewrite <- (randomRange_zero_iff h Hlow Hhigh).
  destruct (Z_le_gt_dec (mNumVoicesHigh h) 0) as [Hle | Hgt].
  - rewrite (getCurrentNumVoices_constant h g Hle).
    split; [ discriminate | intros (_ & Hpos & _); lia ].
  - destruct (Z.eq_dec (Z.rem (mNoteCounter h) 5) 0) as [Hrem | Hrem].
    + rewrite (getCurrentNumVoices_update h g ltac:(lia) Hrem).
      destruct (mVoicesMode h);
        try (split; [ discriminate | intros (Hmode & _); discriminate ]).
      destruct (Z.eqb_spec (randomRange h) 0) as [Hzero | Hnz].
      * split; [ intros _; repeat split; (assumption || lia) | reflexivity ].
      * split; [ discriminate | intros (_ & _ & _ & Hzero); contradiction ].
    + rewrite (getCurrentNumVoices_between h g ltac:(lia) Hrem).
      split; [ discriminate | intros (_ & _ & Hzero & _); contradiction ].
Qed.

(** *** The default mode *)

Lemma undefined_mode_is_switch h g :
  mVoicesMode h = VOICES_UNDEFINED ->
  getCurrentNumVoices h g = getCurrentNumVoices (setVoicesMode VOICES_SWITCH h) g.
Proof.
  intros Hmode. unfold getCurrentNumVoices.
  cbn [setVoicesMode mNumVoicesHigh mVoicesMode]. rewrite Hmode. reflexivity.
Qed.

Lemma undefined_mode_run (notes : list Z) :
  forall h g,
  mVoicesMode h = VOICES_UNDEFINED ->
  voicesForNotes h g notes = voicesForNotes (setVoicesMode VOICES_SWITCH h) g notes.
Proof.
  induction notes as [ | n rest IH]; intros h g Hmode; [ reflexivity | ].
  cbn [voicesForNotes].
  rewrite (undefined_mode_is_switch (set_mNoteCounter n h) g Hmode).
  change (setVoicesMode VOICES_SWITCH (set_mNoteCounter n h))
    with (set_mNoteCounter n (setVoicesMode VOICES_SWITCH h)).
  destruct (getCurrentNumVoices (set_mNoteCounter n (setVoicesMode VOICES_SWITCH h)) g)
    as [ [g1 v] | ]; [ | reflexivity ].
  rewrite (IH h g1 Hmode). reflexivity.
Qed.



(** *** The generator after a restart *)

(** The generator reads four members of the harness and no other. *)
Lemma getCurrentNumVoices_reads h1 h2 g :
  mNumVoicesHigh h1 = mNumVoicesHigh h2 ->
  mNumVoices h1 = mNumVoices h2 ->
  mNoteCounter h1 = mNoteCounter h2 ->
  mVoicesMode h1 = mVoicesMode h2 ->
  getCurrentNumVoices h1 g = getCurrentNumVoices h2 g.
Proof.
  intros Hhigh Hlow Hnote Hmode.
  unfold getCurrentNumVoices, switchVoices, linearLoopVoices, randomVoices, randomRange,
    getNoteCounter, getNumVoices.
  rewrite Hhigh, Hlow, Hnote, Hmode. reflexivity.
Qed.

(** X10.  After a call of [onBeforeNoteOn] that grew the buffer, the
    generator is at an update whatever the note counter was before the call:
    it answers as it does for the note 0.  In Switch mode the next count is
    the low count. *)
Theorem generator_updates_after_growth h g :
  underrunObserved h = true ->
  snd (onBeforeNoteOn h) = SYNTHMARK_RESULT_SUCCESS ->
  getCurrentNumVoices (fst (onBeforeNoteOn h)) g =
    getCurrentNumVoices (set_mNoteCounter 0 h) g /\
  (mVoicesMode h = VOICES_SWITCH -> 0 < mNumVoicesHigh h ->
   getCurrentNumVoices (fst (onBeforeNoteOn h)) g =
     Some (set_lastVoices (mNumVoices h) g, mNumVoices h)).
Proof.
  intros Hu Hok.
  assert (Hsame : getCurrentNumVoices (fst (onBeforeNoteOn h)) g =
                  getCurrentNumVoices (set_mNoteCounter 0 h) g).
  { rewrite (onBeforeNoteOn_underrun h Hu) in Hok |- *.
    match goal with |- context [if ?c then _ else _] => destruct c end;
      [ discriminate | ].
    apply getCurrentNumVoices_reads; reflexivity. }
  split; [ exact Hsame | ].
  intros Hmode Hhigh. rewrite Hsame.
  rewrite (getCurrentNumVoices_update (set_mNoteCounter 0 h) g Hhigh eq_refl).
  cbn [mVoicesMode set_mNoteCounter]. rewrite Hmode. reflexivity.
Qed.

(** *** A high count below the low count *)

(** X11.  In LinearLoop mode a positive high count below the low count
    gives a constant load: every sum is above the high count or below the low
    count, so every update falls back to the low count. *)
Theorem linear_loop_constant_when_high_below_low h g (notes : list Z) :
  mVoicesMode h = VOICES_LINEAR_LOOP ->
  0 < mNumVoicesHigh h < mNumVoices h ->
  countsFrom (-1) notes ->
  exists g', voicesForNotes h g notes = Some (g', map (fun _ => mNumVoices h) notes).
Proof.
  intros Hmode Hhigh Hcount.
  apply (constant_updates_run notes h g (-1)); [ lia | | left; reflexivity | exact Hcount ].
  intros n g0 Hrem.
  rewrite (getCurrentNumVoices_update (set_mNoteCounter n h) g0 ltac:(cbn; lia) Hrem).
  cbn [mVoicesMode set_mNoteCounter]. rewrite Hmode.
  assert (Hv : linearLoopVoices (set_mNoteCounter n h) (lastVoices g0) = mNumVoices h).
  { unfold linearLoopVoices, getNumVoices.
    cbn [mNumVoicesHigh mNumVoices set_mNoteCounter].
    destruct (Z.ltb_spec (mNumVoicesHigh h) (add32 (lastVoices g0) (Z.quot NOTES_PER_STEP 2)));
      [ reflexivity | ].
    destruct (Z.ltb_spec (add32 (lastVoices g0) (Z.quot NOTES_PER_STEP 2)) (mNumVoices h));
      [ reflexivity | lia ]. }
  rewrite Hv. eexists. split; reflexivity.
Qed.

End LoadGeneratorEdges.

(* ================================================================= *)
(** * Further properties of the glitch monitor *)

Lemma exec_cons (a : Action) (rest : list Action) (s s1 : System) :
  step a s = Some s1 -> exec (a :: rest) s = exec rest s1.
Proof. intros Hstep. cbn [exec]. rewrite Hstep. reflexivity. Qed.

(** *** A thread that did not start *)

Lemma step_keeps_monitorOff (a : Action) (s s' : System) :
  step a s = Some s' -> monitorOff s -> monitorOff s'.
Proof.
  unfold monitorOff. intros Hstep (Hthread & Hmon & Hout & Hpc).
  destruct a.
  - main_effect Hstep E. destruct E as (_ & Hentry & _). contradiction.
  - main_effect Hstep E. destruct E as (Hp & Hpc' & Hm & Ht & _).
    rewrite Hp, Hpc', Hm, Ht. auto.
  - main_effect Hstep E. destruct E as (Hp & Hpc' & Hm & Ht & _).
    rewrite Hp, Hpc', Hm, Ht. auto.
  - main_effect Hstep E. destruct E as (Hp & Hpc' & Hm & Ht & _).
    rewrite Hp, Hpc', Hm, Ht. auto.
  - main_effect Hstep E. destruct E as (Hp & _ & Hm & Ht & Hcase).
    rewrite Hthread in Hcase. destruct Hcase as [Hpc' _].
    rewrite Hp, Hm, Ht, Hpc'. repeat split; try assumption. discriminate.
  - main_effect Hstep E. destruct E as (_ & _ & _ & Hfin & _). congruence.
  - main_effect Hstep E. destruct E as (Hp & Hpc' & Hm & Ht & _).
    rewrite Hp, Hpc', Hm, Ht. auto.
  - monitor_effect Hstep E. rewrite Hmon in E. destruct E as (_ & _ & []).
Qed.

Lemma exec_keeps_monitorOff (schedule : list Action) :
  forall s s', exec schedule s = Some s' -> monitorOff s -> monitorOff s'.
Proof.
  induction schedule as [ | a rest IH]; intros s s' Hexec Hoff; cbn in Hexec.
  - injection Hexec as <-. exact Hoff.
  - destruct (step a s) as [s1 | ] eqn:Hstep; [ | discriminate ].
    apply (IH s1 s' Hexec). apply (step_keeps_monitorOff a s s1 Hstep Hoff).
Qed.

(** X12.  When [startMonitorCallback] cannot start the thread, the test runs
    without a monitor: nothing is ever printed, however the buffer size
    changes, and [stopMonitorCallback] returns without waiting for a
    thread. *)
Theorem failed_start_runs_without_monitor
    (h0 : Harness) (schedule : list Action) (s : System) :
  exec (ActStart false :: schedule) (initialSystem h0) = Some s ->
  printed s = [] /\
  mMonitorThread (harness s) = None /\
  monitor s = None /\
  (mainPc s = RunTestBody ->
   step ActStopRequest s = Some (mkSystem (harness s) None RunTestReturned [])).
Proof.
  intros Hexec. cbn [exec] in Hexec.
  destruct (step (ActStart false) (initialSystem h0)) as [s1 | ] eqn:Hstart;
    [ | discriminate ].
  assert (Hoff : monitorOff s1).
  { cbn in Hstart. injection Hstart as <-. repeat split. discriminate. }
  destruct (exec_keeps_monitorOff schedule s1 s Hexec Hoff)
    as (Hthread & Hmon & Hout & _).
  repeat split; try assumption.
  intros Hpc. unfold step. rewrite Hpc, Hthread, Hmon, Hout. reflexivity.
Qed.

(** *** No notification twice in a row for one size *)

Lemma lastSize_app_one (l : list Z) (x : Z) : lastSize (l ++ [x]) = Some x.
Proof.
  induction l as [ | y rest IH]; [ reflexivity | ].
  cbn [app lastSize]. destruct rest as [ | z rest']; [ reflexivity | ].
  cbn [app] in IH |- *. exact IH.
Qed.

Lemma adjacentDistinct_app_one (l : list Z) (x : Z) :
  adjacentDistinct l -> lastSize l <> Some x -> adjacentDistinct (l ++ [x]).
Proof.
  induction l as [ | y rest IH]; intros Hadj Hlast; [ exact I | ].
  destruct rest as [ | z rest'].
  - cbn in Hlast |- *. split; [ congruence | exact I ].
  - cbn [app adjacentDistinct] in Hadj |- *. destruct Hadj as [Hyz Hrest].
    split; [ exact Hyz | ]. apply IH; assumption.
Qed.

Lemma step_keeps_monitorRemembersLastPrint (a : Action) (s s' : System) :
  step a s = Some s' -> monitorRemembersLastPrint s -> monitorRemembersLastPrint s'.
Proof.
  unfold monitorRemembersLastPrint, printedSizes.
  intros Hstep (Hadj & Hentry & Hthread).
  destruct a.
  - main_effect Hstep E. destruct E as (Hp & Hpc & Hpc' & _ & _ & Hm).
    destruct (Hentry Hpc) as [Hnone Hnil].
    rewrite Hp, Hm, Hpc', Hnil, Hnone.
    split; [ exact I | split; [ discriminate | ] ].
    destruct ok; [ reflexivity | exact I ].
  - main_effect Hstep E. destruct E as (Hp & Hpc' & Hm & _).
    rewrite Hp, Hpc', Hm. auto.
  - main_effect Hstep E. destruct E as (Hp & Hpc' & Hm & _).
    rewrite Hp, Hpc', Hm. auto.
  - main_effect Hstep E. destruct E as (Hp & Hpc' & Hm & _).
    rewrite Hp, Hpc', Hm. auto.
  - main_effect Hstep E. destruct E as (Hp & Hpc & Hm & _ & Hcase).
    rewrite Hp, Hm. split; [ exact Hadj | split; [ | exact Hthread ] ].
    intros Hpc0.
    destruct (mMonitorThread (harness s)); destruct Hcase as [Hpc' _]; congruence.
  - main_effect Hstep E. destruct E as (Hp & _ & Hpc' & _ & Hm & _).
    rewrite Hp, Hm. split; [ exact Hadj | split; [ | exact Hthread ] ].
    intros Hpc0. congruence.
  - main_effect Hstep E. destruct E as (Hp & Hpc' & Hm & _).
    rewrite Hp, Hpc', Hm. auto.
  - monitor_effect Hstep E. destruct E as (Hpc' & _ & Hmove).
    assert (Hbody : mainPc s' = RunTestEntry -> monitor s' = None /\ printed s' = []).
    { rewrite Hpc'. intros Hpc. destruct (Hentry Hpc) as [Hnone _].
      rewrite Hnone in Hmove. destruct Hmove. }
    destruct (monitor s) as [ [ | previous | previous | ] | ];
      try (destruct Hmove; fail).
    + destruct Hmove as [Ht Hp].
      split; [ rewrite Hp; exact Hadj | split; [ exact Hbody | ] ].
      rewrite Ht, Hp, Hthread. left. reflexivity.
    + destruct Hmove as [Ht Hp].
      split; [ rewrite Hp; exact Hadj | split; [ exact Hbody | ] ].
      rewrite Ht, Hp.
      destruct (mMonitorEnabled (harness s)); [ exact Hthread | exact I ].
    + destruct Hmove as (Ht & out & Hpoll & Hp).
      destruct (monitorPoll_some _ _ _ _ _ Hpoll) as (_ & Hsame & Hdiff).
      destruct (Z.eq_dec (bufferSize (harness s)) previous) as [Heq | Hne].
      * rewrite (Hsame Heq), app_nil_r in Hp.
        split; [ rewrite Hp; exact Hadj | split; [ exact Hbody | ] ].
        rewrite Ht, Hp, Heq. exact Hthread.
      * destruct (Hdiff Hne) as (n & Hout & Hn). rewrite Hout in Hp.
        split; [ | split; [ exact Hbody | ] ].
        -- rewrite Hp, map_app. cbn [map]. rewrite Hn.
           apply adjacentDistinct_app_one; [ exact Hadj | ].
           destruct Hthread as [Hl | Hl]; rewrite Hl; congruence.
        -- rewrite Ht, Hp, map_app. cbn [map]. rewrite Hn.
           right. apply lastSize_app_one.
Qed.

Lemma exec_keeps_monitorRemembersLastPrint (schedule : list Action) :
  forall s s',
  exec schedule s = Some s' -> monitorRemembersLastPrint s -> monitorRemembersLastPrint s'.
Proof.
  induction schedule as [ | a rest IH]; intros s s' Hexec Hinv; cbn in Hexec.
  - injection Hexec as <-. exact Hinv.
  - destruct (step a s) as [s1 | ] eqn:Hstep; [ | discriminate ].
    apply (IH s1 s' Hexec).
    apply (step_keeps_monitorRemembersLastPrint a s s1 Hstep Hinv).
Qed.

(** X13.  Whatever the two threads do during [runTest], no two notifications
    that follow each other in the output carry the same buffer size. *)
Theorem notifications_never_repeat_a_size
    (h0 : Harness) (schedule : list Action) (s : System) :
  exec schedule (initialSystem h0) = Some s ->
  adjacentDistinct (map noteBufferSize (printed s)).
Proof.
  intros Hexec.
  apply (exec_keeps_monitorRemembersLastPrint schedule _ _ Hexec).
  unfold monitorRemembersLastPrint, printedSizes. cbn. auto.
Qed.

(** *** Stopping the monitor *)

Lemma step_keeps_stopRequested (a : Action) (s s' : System) :
  step a s = Some s' -> stopRequested s -> stopRequested s'.
Proof.
  unfold stopRequested. intros Hstep Hinv.
  destruct a.
  - main_effect Hstep E. destruct E as (_ & _ & Hpc' & _ & Ht & Hm).
    rewrite Hpc', Ht, Hm. destruct ok; [ discriminate | intros Hnull; congruence ].
  - main_effect Hstep E. destruct E as (_ & Hpc' & Hm & Ht & He).
    rewrite Hpc', Hm, Ht, He. exact Hinv.
  - main_effect Hstep E. destruct E as (_ & Hpc' & Hm & Ht & He).
    rewrite Hpc', Hm, Ht, He. exact Hinv.
  - main_effect Hstep E. destruct E as (_ & Hpc' & Hm & Ht & He).
    rewrite Hpc', Hm, Ht, He. exact Hinv.
  - main_effect Hstep E. destruct E as (_ & Hpc & Hm & _ & Hcase).
    rewrite Hpc in Hinv.
    destruct (mMonitorThread (harness s)) eqn:Hthread.
    + destruct Hcase as [Hpc' He]. rewrite Hpc', Hm.
      split; [ exact He | apply Hinv; discriminate ].
    + destruct Hcase as [Hpc' _]. rewrite Hpc'. exact I.
  - main_effect Hstep E. destruct E as (_ & _ & Hpc' & _). rewrite Hpc'. exact I.
  - main_effect Hstep E. destruct E as (_ & Hpc' & Hm & Ht & He).
    rewrite Hpc', Hm, Ht, He. exact Hinv.
  - monitor_effect Hstep E. destruct E as (Hpc' & Hh & Hmove).
    rewrite Hpc', Hh.
    assert (Hsome : monitor s' <> None).
    { destruct (monitor s) as [ [ | previous | previous | ] | ];
        try (destruct Hmove; fail); destruct Hmove as [Ht _]; rewrite Ht; discriminate. }
    destruct (mainPc s); try exact I.
    + intros _. exact Hsome.
    + split; [ exact (proj1 Hinv) | exact Hsome ].
Qed.

Lemma exec_keeps_stopRequested (schedule : list Action) :
  forall s s', exec schedule s = Some s' -> stopRequested s -> stopRequested s'.
Proof.
  induction schedule as [ | a rest IH]; intros s s' Hexec Hinv; cbn in Hexec.
  - injection Hexec as <-. exact Hinv.
  - destruct (step a s) as [s1 | ] eqn:Hstep; [ | discriminate ].
    apply (IH s1 s' Hexec). apply (step_keeps_stopRequested a s s1 Hstep Hinv).
Qed.

Lemma initialSystem_stopRequested (h0 : Harness) : stopRequested (initialSystem h0).
Proof. exact I. Qed.

Lemma monitorPoll_positive (h : Harness) (previous current : Z) :
  0 < mFramesPerBurst h ->
  exists out, monitorPoll h previous current = Some (out, current).
Proof.
  intros Hpos. destruct (Z.eq_dec current previous) as [Heq | Hne].
  - subst current. rewrite monitorPoll_same. eexists. reflexivity.
  - rewrite (monitorPoll_changed h previous current Hne), (div32_positive _ _ Hpos).
    eexists. reflexivity.
Qed.

(** X14.  Once [stopMonitorCallback] has set the flag and waits in [join],
    with a positive burst size the monitor thread needs at most two more
    steps to finish, whatever it was doing, and [join] returns: the main
    thread does not wait for more than the poll that is under way. *)
Theorem stop_returns_after_two_monitor_steps
    (h0 : Harness) (before : list Action) (s : System) :
  exec before (initialSystem h0) = Some s ->
  mainPc s = StopJoining ->
  0 < mFramesPerBurst (harness s) ->
  exists (k : nat) (s' : System),
    (k <= 2)%nat /\
    exec (repeat ActMonitor k ++ [ActJoin]) s = Some s' /\
    mainPc s' = RunTestReturned /\
    mMonitorThread (harness s') = None /\
    monitor s' = Some ThreadFinished.
Proof.
  intros Hexec Hpc Hpos.
  pose proof (exec_keeps_stopRequested before _ _ Hexec (initialSystem_stopRequested h0))
    as Hinv.
  unfold stopRequested in Hinv. rewrite Hpc in Hinv. destruct Hinv as [Hoff Hsome].
  assert (Hjoin : forall t : System,
             mainPc t = StopJoining -> monitor t = Some ThreadFinished ->
             exists t', exec [ActJoin] t = Some t' /\ mainPc t' = RunTestReturned /\
                        mMonitorThread (harness t') = None /\
                        monitor t' = Some ThreadFinished).
  { intros t Htpc Htm. eexists. cbn [exec]. unfold step. rewrite Htpc, Htm.
    split; [ reflexivity | ]. cbn. repeat split. }
  assert (Htest : forall (t : System) previous,
             mainPc t = StopJoining -> mMonitorEnabled (harness t) = false ->
             monitor t = Some (ThreadLoopTest previous) ->
             exists t', step ActMonitor t = Some t' /\ mainPc t' = StopJoining /\
                        monitor t' = Some ThreadFinished).
  { intros t previous Htpc Hten Htm. eexists. rewrite step_monitor. unfold monitorStep.
    rewrite Htm, Hten. split; [ reflexivity | ]. cbn. rewrite Htpc. split; reflexivity. }
  destruct (monitor s) as [ [ | previous | previous | ] | ] eqn:Hmon;
    [ | | | | contradiction ].
  - assert (Hfirst : step ActMonitor s =
                     Some (mkSystem (harness s)
                             (Some (ThreadLoopTest (bufferSize (harness s))))
                             (mainPc s) (printed s))).
    { rewrite step_monitor. unfold monitorStep. rewrite Hmon. reflexivity. }
    destruct (Htest (mkSystem (harness s) (Some (ThreadLoopTest (bufferSize (harness s))))
                       (mainPc s) (printed s))
                (bufferSize (harness s)) Hpc Hoff eq_refl)
      as (t2 & Hsecond & Hpc2 & Hm2).
    destruct (Hjoin t2 Hpc2 Hm2) as (t3 & Hthird & Hres).
    exists 2%nat, t3. split; [ lia | ]. split; [ | exact Hres ].
    cbn [repeat app]. rewrite (exec_cons _ _ _ _ Hfirst), (exec_cons _ _ _ _ Hsecond).
    exact Hthird.
  - destruct (Htest s previous Hpc Hoff Hmon) as (t2 & Hsecond & Hpc2 & Hm2).
    destruct (Hjoin t2 Hpc2 Hm2) as (t3 & Hthird & Hres).
    exists 1%nat, t3. split; [ lia | ]. split; [ | exact Hres ].
    cbn [repeat app]. rewrite (exec_cons _ _ _ _ Hsecond). exact Hthird.
  - destruct (monitorPoll_positive (harness s) previous (bufferSize (harness s)) Hpos)
      as [out Hpoll].
    assert (Hfirst : step ActMonitor s =
                     Some (mkSystem (harness s)
                             (Some (ThreadLoopTest (bufferSize (harness s))))
                             (mainPc s) (printed s ++ out))).
    { rewrite step_monitor. unfold monitorStep. rewrite Hmon, Hpoll. reflexivity. }
    destruct (Htest (mkSystem (harness s) (Some (ThreadLoopTest (bufferSize (harness s))))
                       (mainPc s) (printed s ++ out))
                (bufferSize (harness s)) Hpc Hoff eq_refl)
      as (t2 & Hsecond & Hpc2 & Hm2).
    destruct (Hjoin t2 Hpc2 Hm2) as (t3 & Hthird & Hres).
    exists 2%nat, t3. split; [ lia | ]. split; [ | exact Hres ].
    cbn [repeat app]. rewrite (exec_cons _ _ _ _ Hfirst), (exec_cons _ _ _ _ Hsecond).
    exact Hthird.
  - destruct (Hjoin s Hpc Hmon) as (t3 & Hthird & Hres).
    exists 0%nat, t3. split; [ lia | ]. split; [ exact Hthird | exact Hres ].
Qed.

Lemma step_while_stopping (a : Action) (s s' : System) :
  step a s = Some s' -> stopping s ->
  stopping s' /\
  (length (printed s') + pendingNotifications s'
   <= length (printed s) + pendingNotifications s)%nat.
Proof.
  unfold stopping, pendingNotifications. intros Hstep Hstop.
  destruct a.
  - main_effect Hstep E. destruct E as (_ & Hpc & _).
    destruct Hstop as [ [Hpc0 _] | [Hpc0 _] ]; congruence.
  - main_effect Hstep E. destruct E as (Hp & Hpc' & Hm & _ & He).
    rewrite Hp, Hpc', Hm, He. split; [ exact Hstop | lia ].
  - main_effect Hstep E. destruct E as (Hp & Hpc' & Hm & _ & He).
    rewrite Hp, Hpc', Hm, He. split; [ exact Hstop | lia ].
  - main_effect Hstep E. destruct E as (Hp & Hpc' & Hm & _ & He).
    rewrite Hp, Hpc', Hm, He. split; [ exact Hstop | lia ].
  - main_effect Hstep E. destruct E as (_ & Hpc & _).
    destruct Hstop as [ [Hpc0 _] | [Hpc0 _] ]; congruence.
  - main_effect Hstep E. destruct E as (Hp & _ & Hpc' & Hfin & Hm & _).
    rewrite Hp, Hm. split; [ right; split; [ exact Hpc' | right; exact Hfin ] | lia ].
  - main_effect Hstep E. destruct E as (Hp & Hpc' & Hm & _ & He).
    rewrite Hp, Hpc', Hm, He. split; [ exact Hstop | lia ].
  - monitor_effect Hstep E. destruct E as (Hpc' & Hh & Hmove).
    destruct Hstop as [ [Hpc Hoff] | [_ Hdone] ];
      [ | destruct Hdone as [Hm | Hm]; rewrite Hm in Hmove; destruct Hmove ].
    split; [ left; rewrite Hpc', Hh; split; assumption | ].
    destruct (monitor s) as [ [ | previous | previous | ] | ];
      try (destruct Hmove; fail).
    + destruct Hmove as [Ht Hp]. rewrite Ht, Hp. lia.
    + destruct Hmove as [Ht Hp]. rewrite Ht, Hp, Hoff. lia.
    + destruct Hmove as (Ht & out & Hpoll & Hp). rewrite Ht, Hp, length_app.
      destruct (monitorPoll_some _ _ _ _ _ Hpoll) as (_ & Hsame & Hdiff).
      destruct (Z.eq_dec (bufferSize (harness s)) previous) as [Heq | Hne].
      * rewrite (Hsame Heq). cbn [length]. lia.
      * destruct (Hdiff Hne) as (n & -> & _). cbn [length]. lia.
Qed.

Lemma exec_while_stopping (schedule : list Action) :
  forall s s',
  exec schedule s = Some s' -> stopping s ->
  (length (printed s') + pendingNotifications s'
   <= length (printed s) + pendingNotifications s)%nat.
Proof.
  induction schedule as [ | a rest IH]; intros s s' Hexec Hstop; cbn in Hexec.
  - injection Hexec as <-. lia.
  - destruct (step a s) as [s1 | ] eqn:Hstep; [ | discriminate ].
    destruct (step_while_stopping a s s1 Hstep Hstop) as [Hstop1 Hle].
    specialize (IH s1 s' Hexec Hstop1). lia.
Qed.

(** X15.  After [stopMonitorCallback] has set the flag, the monitor prints
    at most one more notification, that of the poll that was under way, in
    every continuation of the run; and none when the thread was not in its
    sleep. *)
Theorem at_most_one_notification_after_stop_request
    (h0 : Harness) (before after : list Action) (s s' : System) :
  exec before (initialSystem h0) = Some s ->
  mainPc s = StopJoining ->
  exec after s = Some s' ->
  (length (printed s') <= length (printed s) + 1)%nat /\
  ((forall previous, monitor s <> Some (ThreadSleeping previous)) ->
   length (printed s') <= length (printed s))%nat.
Proof.
  intros Hbefore Hpc Hafter.
  pose proof (exec_keeps_stopRequested before _ _ Hbefore (initialSystem_stopRequested h0))
    as Hinv.
  unfold stopRequested in Hinv. rewrite Hpc in Hinv. destruct Hinv as [Hoff _].
  pose proof (exec_while_stopping after s s' Hafter (or_introl (conj Hpc Hoff))) as Hle.
  unfold pendingNotifications in Hle. split.
  - destruct (monitor s) as [ [ | p | p | ] | ]; lia.
  - intros Hawake.
    destruct (monitor s) as [ [ | p | p | ] | ]; try lia.
    exfalso. apply (Hawake p). reflexivity.
Qed.

(** *** The monitor and the measurement *)

Lemma probeView_mainStep (h : Harness) (a : Action) :
  option_map probeView (mainStep (probeView h) a) = option_map probeView (mainStep h a).
Proof.
  destruct a; try reflexivity.
  - cbn [mainStep option_map]. f_equal.
    destruct (underrunObserved (beforeNote i h)) eqn:Hu.
    + assert (Hu' : underrunObserved (beforeNote i (probeView h)) = true) by exact Hu.
      rewrite (onBeforeNoteOn_underrun _ Hu), (onBeforeNoteOn_underrun _ Hu').
      cbn [setBufferSizeInFrames getBufferSizeInFrames VirtualAudioSink fst snd
             beforeNote probeView mAudioSink mFramesPerBurst set_mTimer set_mFrameCounter
             set_mAudioSink set_mMonitorEnabled set_mMonitorThread bufferSizeInFrames
             maxBufferSizeInFrames].
      match goal with |- context [if ?c then _ else _] => destruct c end; reflexivity.
    + assert (Hu' : underrunObserved (beforeNote i (probeView h)) = false) by exact Hu.
      rewrite (onBeforeNoteOn_quiet _ Hu), (onBeforeNoteOn_quiet _ Hu'). reflexivity.
  - cbn [mainStep]. unfold onEndMeasurement.
    change (getBufferSizeInFrames (mAudioSink (probeView h)))
      with (getBufferSizeInFrames (mAudioSink h)).
    change (mFramesPerBurst (probeView h)) with (mFramesPerBurst h).
    destruct (div32 _ _); reflexivity.
Qed.

Lemma probeView_runs (schedule : list Action) :
  forall h1 h2 : Harness,
  probeView h1 = probeView h2 ->
  option_map probeView (mainRun schedule h1) = option_map probeView (mainRun schedule h2).
Proof.
  induction schedule as [ | a rest IH]; intros h1 h2 Hsame.
  - cbn. rewrite Hsame. reflexivity.
  - cbn [mainRun].
    pose proof (probeView_mainStep h1 a) as H1.
    pose proof (probeView_mainStep h2 a) as H2.
    rewrite Hsame, H2 in H1.
    destruct (mainStep h1 a) as [k1 | ], (mainStep h2 a) as [k2 | ];
      cbn [option_map] in H1; try discriminate; [ | reflexivity ].
    apply IH. congruence.
Qed.

Lemma step_probeView (a : Action) (s s' : System) :
  step a s = Some s' ->
  option_map probeView (mainStep (harness s) a) = Some (probeView (harness s')).
Proof.
  intros Hstep. destruct a.
  - unfold step in Hstep. destruct (mainPc s); try discriminate.
    injection Hstep as <-. destruct ok; reflexivity.
  - unfold step in Hstep. destruct (mainPc s); try discriminate.
    injection Hstep as <-. reflexivity.
  - unfold step in Hstep. destruct (mainPc s); try discriminate.
    injection Hstep as <-. reflexivity.
  - unfold step in Hstep. destruct (mainPc s); try discriminate.
    cbn [mainStep].
    destruct (onEndMeasurement (harness s)) as [h' | ]; [ | discriminate ].
    injection Hstep as <-. reflexivity.
  - unfold step in Hstep. destruct (mainPc s); try discriminate.
    destruct (mMonitorThread (harness s)); injection Hstep as <-; reflexivity.
  - unfold step in Hstep. destruct (mainPc s); try discriminate.
    destruct (monitor s) as [ [ | | | ] | ]; try discriminate.
    injection Hstep as <-. reflexivity.
  - unfold step in Hstep.
    assert (Hs' : Some (mkSystem
                          (set_mAudioSink
                             (fst (setBufferSizeInFrames (mAudioSink (harness s)) numFrames))
                             (harness s)) (monitor s) (mainPc s) (printed s)) = Some s')
      by (destruct (mainPc s); exact Hstep).
    injection Hs' as <-. reflexivity.
  - monitor_effect Hstep E. destruct E as (_ & Hh & _). rewrite Hh. reflexivity.
Qed.

(** X16.  The monitor does not touch the measurement: after any interleaving
    of the two threads, the harness is, up to the two members of the monitor,
    the harness that the hooks of the probe and the other callers of the sink
    produce when they run in the same order without a monitor.  Result,
    buffer size and underrun baseline are in particular the same. *)
Theorem monitor_does_not_disturb_the_probe (schedule : list Action) (s s' : System) :
  exec schedule s = Some s' ->
  exists alone,
    mainRun schedule (harness s) = Some alone /\
    probeView (harness s') = probeView alone /\
    mResult (harness s') = mResult alone /\
    bufferSize (harness s') = bufferSize alone /\
    mPreviousUnderrunCount (harness s') = mPreviousUnderrunCount alone.
Proof.
  assert (Hview : forall schedule s s',
             exec schedule s = Some s' ->
             option_map probeView (mainRun schedule (harness s))
             = Some (probeView (harness s'))).
  { clear. induction schedule as [ | a rest IH]; intros s s' Hexec.
    - cbn in Hexec. injection Hexec as <-. reflexivity.
    - cbn [exec] in Hexec.
      destruct (step a s) as [s1 | ] eqn:Hstep; [ | discriminate ].
      pose proof (step_probeView a s s1 Hstep) as Hone.
      cbn [mainRun].
      destruct (mainStep (harness s) a) as [k | ]; [ | discriminate ].
      cbn [option_map] in Hone.
      assert (Hsame : probeView k = probeView (harness s1)) by congruence.
      rewrite (probeView_runs rest k (harness s1) Hsame).
      apply (IH s1 s' Hexec). }
  intros Hexec. specialize (Hview schedule s s' Hexec).
  destruct (mainRun schedule (harness s)) as [alone | ]; [ | discriminate ].
  cbn [option_map] in Hview.
  assert (Hsame : probeView alone = probeView (harness s')) by congruence.
  clear Hview. rename Hsame into Hview.
  exists alone. split; [ reflexivity | ].
  split; [ symmetry; exact Hview | ].
  split; [ exact (f_equal mResult (eq_sym Hview)) | ].
  split; [ exact (f_equal bufferSize (eq_sym Hview)) | ].
  exact (f_equal mPreviousUnderrunCount (eq_sym Hview)).
Qed.

(* ================================================================= *)
(** * The further properties on concrete runs *)

(** A call that fails on a full sink, then a second call: success, and the
    harness stays as the failed call left it. *)
Lemma onBeforeNoteOn_acts_once_witness :
  let h := beforeNote (mkNoteInput 5000 1 960)
             (set_mAudioSink (mkSink 960 1000 0) (exampleHarness 192 1000)) in
  snd (onBeforeNoteOn h) = SYNTHMARK_RESULT_UNRECOVERABLE_ERROR /\
  onBeforeNoteOn (fst (onBeforeNoteOn h)) =
    (fst (onBeforeNoteOn h), SYNTHMARK_RESULT_SUCCESS).
Proof.
  intros h. split; [ reflexivity | ].
  apply (onBeforeNoteOn_acts_once h). intros sink n. reflexivity.
Defined.

(** On a sink of 500 frames the second of two underruns asks for a third
    burst, which does not fit. *)
Lemma search_fails_exactly_when_sink_too_small_witness :
  snd (probeRun (onBeginMeasurement (exampleHarness 192 500)) exampleNotes)
    = SYNTHMARK_RESULT_UNRECOVERABLE_ERROR /\
  bufferSize (fst (probeRun (onBeginMeasurement (exampleHarness 192 500)) exampleNotes))
    = 500.
Proof.
  pose proof (search_fails_exactly_when_sink_too_small (exampleHarness 192 500) exampleNotes
                ltac:(split; [ reflexivity | discriminate ])
                ltac:(split; discriminate) ltac:(discriminate)) as (Hiff & Hmax & _).
  assert (Hfail : snd (probeRun (onBeginMeasurement (exampleHarness 192 500)) exampleNotes)
                  = SYNTHMARK_RESULT_UNRECOVERABLE_ERROR)
    by (apply Hiff; reflexivity).
  split; [ exact Hfail | exact (Hmax Hfail) ].
Defined.

(** Two underruns on a sink of 1000 frames: three bursts, 576 frames. *)
Lemma successful_search_reports_bursts_witness :
  exists report,
    option_map mResult
      (onEndMeasurement
         (fst (probeRun (onBeginMeasurement (exampleHarness 192 1000)) exampleNotes)))
    = Some report /\
    map audio_latency_bursts (resultMessages report) = [3] /\
    map audio_latency_frames (resultMessages report) = [576].
Proof.
  eexists. split.
  - exact (successful_search_reports_bursts (exampleHarness 192 1000) exampleNotes
             ltac:(split; [ reflexivity | discriminate ])
             ltac:(split; discriminate) ltac:(discriminate) eq_refl).
  - split; reflexivity.
Defined.

(** LinearLoop between 2 and 20 voices in a fresh process. *)
Lemma counts_stay_in_range_witness :
  exists g' vs,
    voicesForNotes (exampleVoices VOICES_LINEAR_LOOP 2 20) (processStart (srand 0))
      (firstNotes 12) = Some (g', vs) /\
    Forall (fun v => 2 <= v <= 20) vs.
Proof.
  refine (counts_stay_in_range (exampleVoices VOICES_LINEAR_LOOP 2 20)
            (processStart (srand 0)) (firstNotes 12) _ eq_refl _ firstNotes_countsFrom_12).
  - discriminate.
  - discriminate.
Defined.

(** LinearLoop between 8 and 20 voices in a fresh process: 8, 13, 18 and
    again. *)
Lemma linear_loop_closed_form_witness :
  exists g',
    voicesForNotes (exampleVoices VOICES_LINEAR_LOOP 8 20) (processStart (srand 0))
      (firstNotes 17)
    = Some (g', [8; 8; 8; 8; 8; 13; 13; 13; 13; 13; 18; 18; 18; 18; 18; 8; 8]).
Proof.
  refine (linear_loop_closed_form (exampleVoices VOICES_LINEAR_LOOP 8 20)
            (processStart (srand 0)) 17 eq_refl eq_refl _ _ _ _ _).
  - discriminate.
  - discriminate.
  - discriminate.
  - split; discriminate.
  - right. reflexivity.
Defined.

(** Random mode with a high count of 9 and a low count of 10. *)
Lemma getCurrentNumVoices_undefined_iff_witness :
  getCurrentNumVoices (exampleVoices VOICES_RANDOM 10 9) (processStart (srand 0)) = None.
Proof.
  apply (getCurrentNumVoices_undefined_iff (exampleVoices VOICES_RANDOM 10 9)
           (processStart (srand 0))).
  - split; discriminate.
  - split; discriminate.
  - repeat split. left. reflexivity.
Defined.



(** An underrun seen at the note 7 of a run in Switch mode: the next count
    is the low count, where the note 7 would have had the high count. *)
Lemma generator_updates_after_growth_witness :
  let h := beforeNote (mkNoteInput 5000 1 960)
             (set_mNoteCounter 7 (onBeginMeasurement (exampleVoices VOICES_SWITCH 10 20))) in
  mNoteCounter h = 7 /\
  getCurrentNumVoices (fst (onBeforeNoteOn h)) (mkGlobals 20 (srand 0))
    = Some (mkGlobals 10 (srand 0), 10).
Proof.
  intros h. split; [ reflexivity | ].
  exact (proj2 (generator_updates_after_growth h (mkGlobals 20 (srand 0)) eq_refl eq_refl)
           eq_refl eq_refl).
Defined.

Lemma linear_loop_constant_when_high_below_low_witness :
  exists g',
    voicesForNotes (exampleVoices VOICES_LINEAR_LOOP 10 3) (processStart (srand 0))
      (firstNotes 12)
    = Some (g', [10; 10; 10; 10; 10; 10; 10; 10; 10; 10; 10; 10]).
Proof.
  refine (linear_loop_constant_when_high_below_low (exampleVoices VOICES_LINEAR_LOOP 10 3)
            (processStart (srand 0)) (firstNotes 12) eq_refl _ firstNotes_countsFrom_12).
  split; reflexivity.
Defined.

(** The thread does not start; the buffer grows once all the same. *)
Lemma failed_start_runs_without_monitor_witness :
  exists s,
    exec [ActStart false; ActBegin; ActNote (mkNoteInput 5000 1 960); ActSetBufferSize 700]
      (initialSystem (exampleHarness 192 1000)) = Some s /\
    bufferSize (harness s) = 700 /\
    printed s = [].
Proof.
  run_schedule [ActStart false; ActBegin; ActNote (mkNoteInput 5000 1 960);
                ActSetBufferSize 700] (initialSystem (exampleHarness 192 1000)) Hexec.
  split; [ exact Hexec | split; [ reflexivity | ] ].
  exact (proj1 (failed_start_runs_without_monitor (exampleHarness 192 1000) _ _ Hexec)).
Defined.

Lemma notifications_never_repeat_a_size_witness :
  exists s,
    exec exampleSchedule (initialSystem (exampleHarness 192 1000)) = Some s /\
    map noteBufferSize (printed s) = [192; 384] /\
    adjacentDistinct (map noteBufferSize (printed s)).
Proof.
  run_schedule exampleSchedule (initialSystem (exampleHarness 192 1000)) Hexec.
  split; [ exact Hexec | split; [ reflexivity | ] ].
  exact (notifications_never_repeat_a_size (exampleHarness 192 1000) _ _ Hexec).
Defined.

(** The flag is set while the monitor is in its sleep and the buffer has
    just been set to one burst. *)
Lemma stop_returns_after_two_monitor_steps_witness :
  exists s,
    exec [ActStart true; ActMonitor; ActMonitor; ActBegin; ActStopRequest]
      (initialSystem (exampleHarness 192 1000)) = Some s /\
    monitor s = Some (ThreadSleeping 0) /\
    bufferSize (harness s) = 192 /\
    exists (k : nat) (s' : System),
      (k <= 2)%nat /\
      exec (repeat ActMonitor k ++ [ActJoin]) s = Some s' /\
      mainPc s' = RunTestReturned /\
      mMonitorThread (harness s') = None /\
      monitor s' = Some ThreadFinished.
Proof.
  run_schedule [ActStart true; ActMonitor; ActMonitor; ActBegin; ActStopRequest]
    (initialSystem (exampleHarness 192 1000)) Hexec.
  split; [ exact Hexec | split; [ reflexivity | split; [ reflexivity | ] ] ].
  exact (stop_returns_after_two_monitor_steps (exampleHarness 192 1000) _ _ Hexec
           eq_refl eq_refl).
Defined.

Lemma at_most_one_notification_after_stop_request_witness :
  exists s s',
    exec [ActStart true; ActMonitor; ActMonitor; ActBegin; ActStopRequest]
      (initialSystem (exampleHarness 192 1000)) = Some s /\
    exec [ActMonitor; ActSetBufferSize 700; ActMonitor; ActJoin; ActSetBufferSize 900] s
      = Some s' /\
    printed s = [] /\
    map noteBufferSize (printed s') = [192] /\
    (length (printed s') <= length (printed s) + 1)%nat.
Proof.
  run_schedule [ActStart true; ActMonitor; ActMonitor; ActBegin; ActStopRequest]
    (initialSystem (exampleHarness 192 1000)) Hbefore.
  match type of Hbefore with
  | _ = Some ?s =>
      run_schedule [ActMonitor; ActSetBufferSize 700; ActMonitor; ActJoin;
                    ActSetBufferSize 900] s Hafter
  end.
  split; [ exact Hbefore | split; [ exact Hafter | ] ].
  split; [ reflexivity | split; [ reflexivity | ] ].
  exact (proj1 (at_most_one_notification_after_stop_request (exampleHarness 192 1000)
                  _ _ _ _ Hbefore eq_refl Hafter)).
Defined.

(** The example run with its monitor steps, and the probe alone. *)
Lemma monitor_does_not_disturb_the_probe_witness :
  exists s alone,
    exec exampleSchedule (initialSystem (exampleHarness 192 1000)) = Some s /\
    mainRun exampleSchedule (harness (initialSystem (exampleHarness 192 1000)))
      = Some alone /\
    bufferSize (harness s) = 384 /\
    mResult (harness s) = mResult alone /\
    bufferSize (harness s) = bufferSize alone.
Proof.
  run_schedule exampleSchedule (initialSystem (exampleHarness 192 1000)) Hexec.
  destruct (monitor_does_not_disturb_the_probe exampleSchedule _ _ Hexec)
    as (alone & Hrun & _ & Hresult & Hsize & _).
  exists alone.
  split; [ exact Hexec | split; [ exact Hrun | split; [ reflexivity | ] ] ].
  split; [ exact Hresult | exact Hsize ].
Defined.
